(** * grid_plotter: cube faces for the leaves of a spatial tree

    A shallow embedding of [content/notebooks/grid_plotter.py].

    The Python module has two layers:
    - a pure geometry layer ([plot_surface_xy], [plot_surface_yz],
      [plot_surface_xz], [plot_cube]) that turns a corner and an edge length
      into six faces, each made of three coordinate grids built with
      [numpy.meshgrid];
    - an orchestration layer ([grid_plotter]) that talks to two external
      objects: the tree (through [nEndNodes], [fetchEndNode], [lowerBounds],
      [upperBounds]) and the matplotlib axes (through [plot_surface]).

    The geometry layer is embedded as plain functions over an arbitrary
    coordinate type carrying the two arithmetic operations the code uses.
    The orchestration layer is embedded in a small monad that threads the
    state of the (opaque) tree object, propagates exceptions, and logs every
    external call in the order it is made. *)

From Stdlib Require Import List ZArith Lia Bool String Floats.
Import ListNotations.

Local Open Scope string_scope.
Local Open Scope list_scope.
Local Open Scope Z_scope.

(** ** Python values used by the module *)

(** The arithmetic the module performs on coordinates: [x + length] in the
    face builders and [upper[0] - lower[0]] in [grid_plotter]. *)
Class PyNum (A : Type) : Type := {
  py_add : A -> A -> A;
  py_sub : A -> A -> A
}.

(** Python [int] coordinates. *)
#[global] Instance PyNum_Z : PyNum Z := {| py_add := Z.add; py_sub := Z.sub |}.

(** Exceptions that can cross [grid_plotter]: the [IndexError] of a sequence
    subscript, or whatever one of the tree's methods raises. *)
Inductive exn : Type :=
| IndexError
| TreeError (msg : string).

Inductive result (X : Type) : Type :=
| Ok (x : X)
| Raise (e : exn).
Arguments Ok {X} x.
Arguments Raise {X} e.

(** [seq[i]] on a Python sequence: a negative index counts from the end, and
    an index outside the sequence raises [IndexError]. *)
Definition getitem {X : Type} (l : list X) (i : Z) : result X :=
  let k := if i <? 0 then i + Z.of_nat (List.length l) else i in
  if k <? 0 then Raise IndexError
  else match nth_error l (Z.to_nat k) with
       | Some v => Ok v
       | None => Raise IndexError
       end.

(** [range(n)]: empty when [n <= 0]. *)
Definition range (n : Z) : list Z := map Z.of_nat (seq 0 (Z.to_nat n)).

(** ** Geometry layer *)

Section Geometry.
Context {A : Type} `{PyNum A}.

(** A 2-D array, row by row. *)
Definition grid : Type := list (list A).

(** A face is the tuple [(X, Y, Z)] handed to [plot_surface]. *)
Definition face : Type := (grid * grid * grid)%type.

Definition face_X (d : face) : grid := fst (fst d).
Definition face_Y (d : face) : grid := snd (fst d).
Definition face_Z (d : face) : grid := snd d.

(** [numpy.meshgrid(xs, ys)] with the default ['xy'] indexing: both results
    have one row per element of [ys] and one column per element of [xs];
    the first repeats [xs] along every row, the second repeats each
    element of [ys] along its row. *)
Definition meshgrid (xs ys : list A) : grid * grid :=
  (map (fun _ => xs) ys, map (fun y => map (fun _ => y) xs) ys).

Definition plot_surface_xy (x y z length : A) : face * face :=
  let rx := [x; py_add x length] in
  let ry := [y; py_add y length] in
  let '(X, Y) := meshgrid rx ry in
  let r_1 := [z; z] in
  let r_2 := [py_add z length; py_add z length] in
  let '(p1, _) := meshgrid r_1 r_1 in
  let '(p2, _) := meshgrid r_2 r_2 in
  ((X, Y, p1), (X, Y, p2)).

Definition plot_surface_yz (x y z length : A) : face * face :=
  let ry := [y; py_add y length] in
  let rz := [z; py_add z length] in
  let '(Y, Z) := meshgrid ry rz in
  let r_1 := [x; x] in
  let r_2 := [py_add x length; py_add x length] in
  let '(p1, _) := meshgrid r_1 r_1 in
  let '(p2, _) := meshgrid r_2 r_2 in
  ((p1, Y, Z), (p2, Y, Z)).

Definition plot_surface_xz (x y z length : A) : face * face :=
  let rx := [x; py_add x length] in
  let rz := [z; py_add z length] in
  let '(X, Z) := meshgrid rx rz in
  let r_1 := [y; y] in
  let r_2 := [py_add y length; py_add y length] in
  let '(p1, _) := meshgrid r_1 r_1 in
  let '(p2, _) := meshgrid r_2 r_2 in
  ((X, p1, Z), (X, p2, Z)).

(** [plot_cube] subscripts its [corner] argument three times and returns
    the 6-tuple [(a, b, c, d, e, f)], kept here as the sequence the caller
    iterates over. *)
Definition plot_cube (corner : list A) (length : A) : result (list face) :=
  match getitem corner 0 with
  | Raise e => Raise e
  | Ok x =>
    match getitem corner 1 with
    | Raise e => Raise e
    | Ok y =>
      match getitem corner 2 with
      | Raise e => Raise e
      | Ok z =>
        let '(a, b) := plot_surface_xy x y z length in
        let '(c, d) := plot_surface_yz x y z length in
        let '(e, f) := plot_surface_xz x y z length in
        Ok [a; b; c; d; e; f]
      end
    end
  end.

(** *** Vocabulary for the shape and contents of grids *)

(** Two rows of two entries. *)
Definition is_2x2 (g : grid) : Prop :=
  List.length g = 2%nat /\ Forall (fun row => List.length row = 2%nat) g.

(** Every entry of the grid is [v]. *)
Definition constant_grid (v : A) (g : grid) : Prop :=
  Forall (Forall (eq v)) g.

(** Every entry of the grid is one of [vs]. *)
Definition values_in (vs : list A) (g : grid) : Prop :=
  Forall (Forall (fun a => In a vs)) g.

(** The grid takes both values [lo] and [hi] (it spans the range), varying
    along the columns or along the rows. *)
Definition spans_columns (lo hi : A) (g : grid) : Prop :=
  g = [[lo; hi]; [lo; hi]].
Definition spans_rows (lo hi : A) (g : grid) : Prop :=
  g = [[lo; lo]; [hi; hi]].

Definition face_2x2 (d : face) : Prop :=
  is_2x2 (face_X d) /\ is_2x2 (face_Y d) /\ is_2x2 (face_Z d).

(** The same two layouts with the second sample below the first for an
    order [lt] on coordinates: the orientation of a flipped face. *)
Definition descending_columns (lt : A -> A -> Prop) (g : grid) : Prop :=
  exists lo hi, spans_columns lo hi g /\ lt hi lo.
Definition descending_rows (lt : A -> A -> Prop) (g : grid) : Prop :=
  exists lo hi, spans_rows lo hi g /\ lt hi lo.

(** A 3-D corner point as the sequence the code subscripts. *)
Definition point3 (x y z : A) : list A := [x; y; z].

Definition is_point3 (l : list A) : Prop := exists x y z, l = point3 x y z.

(** The sequence a bounds accessor returns for a corner. *)
Definition bounds_list (p : A * A * A) : list A :=
  let '(x, y, z) := p in point3 x y z.

(** For a cell with lower corner [lo] and upper corner [hi]: the extent
    along x, and the six faces of the cube at [lo] with that edge. *)
Definition edge_length (lo hi : A * A * A) : A :=
  py_sub (fst (fst hi)) (fst (fst lo)).

Definition cube_faces (lo hi : A * A * A) : list face :=
  match plot_cube (bounds_list lo) (edge_length lo hi) with
  | Ok faces => faces
  | Raise _ => []
  end.

End Geometry.

(** ** Orchestration layer *)

(** Python [float] coordinates, and the literal [0.01] passed as [alpha]. *)
#[global] Instance PyNum_float : PyNum float :=
  {| py_add := PrimFloat.add; py_sub := PrimFloat.sub |}.

#[warnings="-inexact-float"]
Definition alpha_literal : float := 0.01%float.

Section Orchestration.
Context {A : Type} `{PyNum A}.

(** The tree is an opaque object: [tree] is its hidden state, [node] the
    type of the leaf handles it gives out.  Each method may raise and may
    change the hidden state. *)
Context {tree node : Type}.

Record TreeMethods : Type := {
  do_nEndNodes : tree -> result Z * tree;
  do_fetchEndNode : Z -> tree -> result node * tree;
  do_lowerBounds : node -> tree -> result (list A) * tree;
  do_upperBounds : node -> tree -> result (list A) * tree
}.

(** Every call that leaves the module, with its arguments. *)
Inductive call : Type :=
| Call_figure
| Call_add_subplot (pos : Z) (projection : string)
| Call_grid (visible : bool)
| Call_axis (arg : string)
| Call_nEndNodes
| Call_fetchEndNode (i : Z)
| Call_lowerBounds (nd : node)
| Call_upperBounds (nd : node)
| Call_plot_surface (X Y Z : @grid A) (color : string) (alpha : float).

(** A logged call, with the exception it raised if it did. *)
Record event : Type := { ev_call : call; ev_raised : option exn }.

Record outcome (X : Type) : Type := {
  res : result X;
  final : tree;
  trace : list event
}.
Arguments res {X} _.
Arguments final {X} _.
Arguments trace {X} _.

(** Computations: from the tree's state to a result (or an exception), the
    tree's new state and the calls made, oldest first. *)
Definition M (X : Type) : Type := tree -> outcome X.

Definition ret {X : Type} (x : X) : M X :=
  fun t => {| res := Ok x; final := t; trace := [] |}.

Definition bind {X Y : Type} (m : M X) (f : X -> M Y) : M Y :=
  fun t =>
    let o := m t in
    match res o with
    | Raise e => {| res := Raise e; final := final o; trace := trace o |}
    | Ok x =>
      let o' := f x (final o) in
      {| res := res o'; final := final o'; trace := trace o ++ trace o' |}
    end.

(** A pure step that may raise (a subscript, [plot_cube]). *)
Definition lift {X : Type} (r : result X) : M X :=
  fun t => {| res := r; final := t; trace := [] |}.

Definition raised_by {X : Type} (r : result X) : option exn :=
  match r with Ok _ => None | Raise e => Some e end.

(** A method call on the tree or on one of its nodes. *)
Definition tree_call {X : Type} (c : call) (m : tree -> result X * tree) : M X :=
  fun t =>
    let '(r, t') := m t in
    {| res := r; final := t';
       trace := [{| ev_call := c; ev_raised := raised_by r |}] |}.

(** A call on the plotting library; the tree is not involved, and the
    library is taken to accept every call. *)
Definition plot_call (c : call) : M unit :=
  fun t => {| res := Ok tt; final := t;
              trace := [{| ev_call := c; ev_raised := None |}] |}.

Variable methods : TreeMethods.

Definition nEndNodes : M Z :=
  tree_call Call_nEndNodes (do_nEndNodes methods).
Definition fetchEndNode (i : Z) : M node :=
  tree_call (Call_fetchEndNode i) (do_fetchEndNode methods i).
Definition lowerBounds (nd : node) : M (list A) :=
  tree_call (Call_lowerBounds nd) (do_lowerBounds methods nd).
Definition upperBounds (nd : node) : M (list A) :=
  tree_call (Call_upperBounds nd) (do_upperBounds methods nd).

Definition plot_surface (X Y Z : @grid A) (color : string) (alpha : float) : M unit :=
  plot_call (Call_plot_surface X Y Z color alpha).

(** [[f(i) for i in l]] *)
Fixpoint list_comp {X Y : Type} (f : X -> M Y) (l : list X) : M (list Y) :=
  match l with
  | [] => ret []
  | x :: l' =>
    bind (f x) (fun y => bind (list_comp f l') (fun ys => ret (y :: ys)))
  end.

(** [for x in l: body(x)] *)
Fixpoint for_each {X : Type} (l : list X) (body : X -> M unit) : M unit :=
  match l with
  | [] => ret tt
  | x :: l' => bind (body x) (fun _ => for_each l' body)
  end.

Notation "x <- m ;; k" := (bind m (fun x => k))
  (at level 61, m at next level, right associativity).
Notation "m ;;; k" := (bind m (fun _ => k))
  (at level 61, right associativity).

Definition grid_plotter : M unit :=
  plot_call Call_figure ;;;
  plot_call (Call_add_subplot 111 "3d") ;;;
  plot_call (Call_grid false) ;;;
  plot_call (Call_axis "off") ;;;
  n1 <- nEndNodes ;;
  corners <- list_comp (fun i => nd <- fetchEndNode i ;; lowerBounds nd)
                       (range n1) ;;
  n2 <- nEndNodes ;;
  lengths <- list_comp
               (fun i =>
                  nu <- fetchEndNode i ;;
                  ub <- upperBounds nu ;;
                  u0 <- lift (getitem ub 0) ;;
                  nl <- fetchEndNode i ;;
                  lb <- lowerBounds nl ;;
                  l0 <- lift (getitem lb 0) ;;
                  ret (py_sub u0 l0))
               (range n2) ;;
  n3 <- nEndNodes ;;
  for_each (range n3)
    (fun i =>
       corner <- lift (getitem corners i) ;;
       length <- lift (getitem lengths i) ;;
       data <- lift (plot_cube corner length) ;;
       for_each data
         (fun d => plot_surface (face_X d) (face_Y d) (face_Z d)
                                "purple" alpha_literal)).

(** *** Views of the call log *)

(** A logged call without the data that depends on the tree's answers. *)
Inductive shape : Type :=
| S_figure
| S_add_subplot (pos : Z) (projection : string)
| S_grid (visible : bool)
| S_axis (arg : string)
| S_nEndNodes
| S_fetchEndNode (i : Z)
| S_lowerBounds
| S_upperBounds
| S_plot_surface (color : string) (alpha : float).

Definition shape_of (e : event) : shape :=
  match ev_call e with
  | Call_figure => S_figure
  | Call_add_subplot pos projection => S_add_subplot pos projection
  | Call_grid visible => S_grid visible
  | Call_axis arg => S_axis arg
  | Call_nEndNodes => S_nEndNodes
  | Call_fetchEndNode i => S_fetchEndNode i
  | Call_lowerBounds _ => S_lowerBounds
  | Call_upperBounds _ => S_upperBounds
  | Call_plot_surface _ _ _ color alpha => S_plot_surface color alpha
  end.

Definition view_shape (e : event) : list shape := [shape_of e].

(** The faces submitted to the plotting surface. *)
Definition view_drawn (e : event) : list (@face A) :=
  match ev_call e with
  | Call_plot_surface X Y Z _ _ => [(X, Y, Z)]
  | _ => []
  end.

Definition is_draw (e : event) : bool :=
  match ev_call e with
  | Call_plot_surface _ _ _ _ _ => true
  | _ => false
  end.

Definition is_tree_call (e : event) : bool :=
  match ev_call e with
  | Call_nEndNodes | Call_fetchEndNode _
  | Call_lowerBounds _ | Call_upperBounds _ => true
  | _ => false
  end.

Definition has_raised (e : event) : bool :=
  match ev_raised e with Some _ => true | None => false end.

Definition is_S_nEndNodes (s : shape) : bool :=
  match s with S_nEndNodes => true | _ => false end.
Definition is_S_fetchEndNode (i : Z) (s : shape) : bool :=
  match s with S_fetchEndNode j => j =? i | _ => false end.
Definition is_S_lowerBounds (s : shape) : bool :=
  match s with S_lowerBounds => true | _ => false end.
Definition is_S_upperBounds (s : shape) : bool :=
  match s with S_upperBounds => true | _ => false end.
Definition is_S_plot_surface (s : shape) : bool :=
  match s with S_plot_surface _ _ => true | _ => false end.

Definition count {X : Type} (p : X -> bool) (l : list X) : nat :=
  List.length (filter p l).

(** *** Specifications of computations *)

(** [m] returns normally from every state of the tree, its result
    satisfies [P], and its log, seen through [view], is [s]. *)
Definition yields {X V : Type} (view : event -> list V)
    (m : M X) (s : list V) (P : X -> Prop) : Prop :=
  forall t, exists x,
    res (m t) = Ok x /\ P x /\ flat_map view (trace (m t)) = s.

(** [m] submits no face, and when it returns normally no call has raised. *)
Definition quiet {X : Type} (m : M X) : Prop :=
  forall t,
    Forall (fun e => is_draw e = false) (trace (m t)) /\
    (forall x, res (m t) = Ok x ->
               Forall (fun e => has_raised e = false) (trace (m t))).

(** [m] makes only [plot_surface] calls. *)
Definition draws_only {X : Type} (m : M X) : Prop :=
  forall t,
    Forall (fun e => is_draw e = true /\ is_tree_call e = false /\
                     has_raised e = false) (trace (m t)).

(** The log splits into a part without [plot_surface] followed by a part
    with nothing else; and if that second part is not empty, or if the run
    returned normally, no call of the first part has raised. *)
Definition reads_then_draws {X : Type} (o : outcome X) : Prop :=
  exists reads draws,
    trace o = reads ++ draws /\
    Forall (fun e => is_draw e = false) reads /\
    Forall (fun e => is_draw e = true /\ is_tree_call e = false /\
                     has_raised e = false) draws /\
    (draws <> [] \/ (exists x, res o = Ok x) ->
     Forall (fun e => has_raised e = false) reads).

(** *** Trees that answer as the interface promises *)

(** A tree with [N] leaves: [nEndNodes] answers [N] whenever it is asked,
    [fetchEndNode] answers for every index below [N], and the bounds of a
    node are three coordinates. *)
Definition well_behaved (N : Z) : Prop :=
  0 <= N /\
  (forall t, fst (do_nEndNodes methods t) = Ok N) /\
  (forall i t, 0 <= i < N ->
     exists nd, fst (do_fetchEndNode methods i t) = Ok nd) /\
  (forall nd t, exists x y z,
     fst (do_lowerBounds methods nd t) = Ok (point3 x y z)) /\
  (forall nd t, exists x y z,
     fst (do_upperBounds methods nd t) = Ok (point3 x y z)).

(** A tree whose answers do not change: it has [N] leaves, [leaf i] is its
    leaf at index [i], and [lo nd], [hi nd] are the bounds of a node. *)
Definition answers_as (N : Z) (leaf : Z -> node)
    (lo hi : node -> A * A * A) : Prop :=
  0 <= N /\
  (forall t, fst (do_nEndNodes methods t) = Ok N) /\
  (forall i t, 0 <= i < N -> fst (do_fetchEndNode methods i t) = Ok (leaf i)) /\
  (forall nd t, fst (do_lowerBounds methods nd t) = Ok (bounds_list (lo nd))) /\
  (forall nd t, fst (do_upperBounds methods nd t) = Ok (bounds_list (hi nd))).

(** The calls [grid_plotter] makes on a tree with [N] leaves, in order. *)
Definition expected_calls (N : Z) : list shape :=
  [S_figure; S_add_subplot 111 "3d"; S_grid false; S_axis "off"] ++
  [S_nEndNodes] ++
  flat_map (fun i => [S_fetchEndNode i; S_lowerBounds]) (range N) ++
  [S_nEndNodes] ++
  flat_map (fun i => [S_fetchEndNode i; S_upperBounds;
                      S_fetchEndNode i; S_lowerBounds]) (range N) ++
  [S_nEndNodes] ++
  flat_map (fun _ => repeat (S_plot_surface "purple" alpha_literal) 6)
           (range N).

End Orchestration.

Arguments TreeMethods : clear implicits.
Arguments call : clear implicits.
Arguments event : clear implicits.
Arguments outcome : clear implicits.
Arguments M : clear implicits.
Arguments res {A tree node X} _.
Arguments final {A tree node X} _.
Arguments trace {A tree node X} _.

(** ** An in-memory tree *)

Section StaticTree.
Context {A : Type} `{PyNum A}.

(** A leaf cell with its two bounding corners. *)
Record Leaf : Type := {
  leaf_lower : A * A * A;
  leaf_upper : A * A * A
}.

(** A tree that is just the list of its leaves.  It has no hidden state,
    its accessors never change their answers, and [fetchEndNode] refuses
    an index outside [0 .. N-1]. *)
Definition static_methods (leaves : list Leaf) : TreeMethods A unit Leaf :=
  {| do_nEndNodes := fun t => (Ok (Z.of_nat (List.length leaves)), t);
     do_fetchEndNode := fun i t =>
       (if i <? 0 then Raise (TreeError "fetchEndNode")
        else match nth_error leaves (Z.to_nat i) with
             | Some nd => Ok nd
             | None => Raise (TreeError "fetchEndNode")
             end, t);
     do_lowerBounds := fun nd t => (Ok (bounds_list (leaf_lower nd)), t);
     do_upperBounds := fun nd t => (Ok (bounds_list (leaf_upper nd)), t) |}.

(** The six faces [grid_plotter] is to draw for a leaf. *)
Definition leaf_faces (nd : Leaf) : list face :=
  cube_faces (leaf_lower nd) (leaf_upper nd).

End StaticTree.

Arguments Leaf : clear implicits.

(** Sample trees: no leaf; two integer leaves (the second is not a cube);
    the unit cube in floating point. *)
Definition no_leaves : list (Leaf Z) := [].

Definition two_leaves : list (Leaf Z) :=
  [ {| leaf_lower := (0, 0, 0); leaf_upper := (1, 1, 1) |};
    {| leaf_lower := (1, 0, 0); leaf_upper := (3, 1, 1) |} ].

Definition unit_cube : list (Leaf float) :=
  [ {| leaf_lower := (0, 0, 0)%float; leaf_upper := (1, 1, 1)%float |} ].

(** The two-leaf tree with an [upperBounds] that always raises. *)
Definition broken_upper_methods : TreeMethods Z unit (Leaf Z) :=
  {| do_nEndNodes := do_nEndNodes (static_methods two_leaves);
     do_fetchEndNode := do_fetchEndNode (static_methods two_leaves);
     do_lowerBounds := do_lowerBounds (static_methods two_leaves);
     do_upperBounds := fun _ t => (Raise (TreeError "upperBounds"), t) |}.

(** ** Further vocabulary *)

Section GeometryVocabulary.
Context {A : Type} `{PyNum A}.

(** The sample points of a face: entry [(i, j)] of the three grids taken
    together, row after row. *)
Definition zip3 (xs ys zs : list A) : list (A * A * A) :=
  map (fun '(x, (y, z)) => (x, y, z)) (combine xs (combine ys zs)).

Definition vertices (d : face) : list (A * A * A) :=
  List.concat (map (fun '(rx, (ry, rz)) => zip3 rx ry rz)
              (combine (face_X d) (combine (face_Y d) (face_Z d)))).

(** The eight corners of the cube with corner [(x, y, z)] and edge [L]. *)
Definition cube_corners (x y z L : A) : list (A * A * A) :=
  [ (x, y, z); (py_add x L, y, z);
    (x, py_add y L, z); (py_add x L, py_add y L, z);
    (x, y, py_add z L); (py_add x L, y, py_add z L);
    (x, py_add y L, py_add z L); (py_add x L, py_add y L, py_add z L) ].

(** Renaming the axes of a face. *)
Definition axes_zxy (d : @face A) : @face A :=
  (face_Z d, face_X d, face_Y d).
Definition axes_xzy (d : @face A) : @face A :=
  (face_X d, face_Z d, face_Y d).

(** Moving a face by [(dx, dy, dz)]. *)
Definition shift_grid (d : A) (g : grid) : grid :=
  map (map (fun a => py_add a d)) g.

Definition shift_face (dx dy dz : A) (q : face) : face :=
  (shift_grid dx (face_X q), shift_grid dy (face_Y q),
   shift_grid dz (face_Z q)).

End GeometryVocabulary.

Section RunVocabulary.
Context {A : Type} {tree node : Type}.

(** A call that raised is the last call made, and what it raised is what
    the computation raises. *)
Definition propagates {X : Type} (m : M A tree node X) : Prop :=
  forall t ev e,
    In ev (trace (m t)) -> ev_raised ev = Some e ->
    res (m t) = Raise e /\ exists pre, trace (m t) = pre ++ [ev].

(** What the computation raises is an [IndexError] or was raised by a call
    on the tree. *)
Definition raises_known {X : Type} (m : M A tree node X) : Prop :=
  forall t e,
    res (m t) = Raise e ->
    e = IndexError \/
    exists ev, In ev (trace (m t)) /\ is_tree_call ev = true /\
               ev_raised ev = Some e.

(** The faces are submitted six at a time. *)
Definition whole_cubes {X : Type} (m : M A tree node X) : Prop :=
  forall t, exists k, count is_draw (trace (m t)) = (6 * k)%nat.

Definition is_upperBounds_call (e : event A node) : bool :=
  match ev_call e with
  | Call_upperBounds _ => true
  | _ => false
  end.

Definition is_lowerBounds_call (e : event A node) : bool :=
  match ev_call e with
  | Call_lowerBounds _ => true
  | _ => false
  end.

End RunVocabulary.

(** More sample trees: one that reports a negative number of leaves, and
    the two integer leaves with other y and z extents. *)
Definition negative_count_methods : TreeMethods Z unit unit :=
  {| do_nEndNodes := fun t => (Ok (-3), t);
     do_fetchEndNode := fun _ t => (Raise (TreeError "fetchEndNode"), t);
     do_lowerBounds := fun _ t => (Raise (TreeError "lowerBounds"), t);
     do_upperBounds := fun _ t => (Raise (TreeError "upperBounds"), t) |}.

Definition two_leaves_tall : list (Leaf Z) :=
  [ {| leaf_lower := (0, 0, 0); leaf_upper := (1, 5, 9) |};
    {| leaf_lower := (1, 0, 0); leaf_upper := (3, 7, 4) |} ].

(** The two integer leaves behind an [nEndNodes] that answers 1, then 1,
    then 2: the hidden state counts the calls of [nEndNodes]. *)
Definition growing_methods : TreeMethods Z nat (Leaf Z) :=
  {| do_nEndNodes := fun calls =>
       (Ok (if (calls <? 2)%nat then 1 else 2), S calls);
     do_fetchEndNode := fun i calls =>
       (fst (do_fetchEndNode (static_methods two_leaves) i tt), calls);
     do_lowerBounds := fun nd calls => (Ok (bounds_list (leaf_lower nd)), calls);
     do_upperBounds := fun nd calls => (Ok (bounds_list (leaf_upper nd)), calls) |}.

(** ** The geometry layer as the interpreter runs it *)

Section PythonLevel.
Context {A : Type} `{PyNum A}.

(** [G] stands for everything a Python function can reach besides its
    arguments: module globals, the state of the numpy library.  A
    computation takes that state to a result (or an exception) and a new
    state. *)
Context {G : Type}.

Definition Py (X : Type) : Type := G -> result X * G.

Definition py_ret {X : Type} (x : X) : Py X := fun g => (Ok x, g).

Definition py_bind {X Y : Type} (m : Py X) (f : X -> Py Y) : Py Y :=
  fun g =>
    match m g with
    | (Ok x, g') => f x g'
    | (Raise e, g') => (Raise e, g')
    end.

(** A step that uses its operands only (a subscript). *)
Definition py_lift {X : Type} (r : result X) : Py X := fun g => (r, g).

(** [np.meshgrid] as the caller sees it: a library call, free to read and
    to change the state, and to raise. *)
Variable np_meshgrid : list A -> list A -> Py (@grid A * @grid A).

Definition plot_surface_xy_py (x y z length : A) : Py (@face A * @face A) :=
  let rx := [x; py_add x length] in
  let ry := [y; py_add y length] in
  py_bind (np_meshgrid rx ry) (fun '(X, Y) =>
  let r_1 := [z; z] in
  let r_2 := [py_add z length; py_add z length] in
  py_bind (np_meshgrid r_1 r_1) (fun '(p1, _) =>
  py_bind (np_meshgrid r_2 r_2) (fun '(p2, _) =>
  py_ret ((X, Y, p1), (X, Y, p2))))).

Definition plot_surface_yz_py (x y z length : A) : Py (@face A * @face A) :=
  let ry := [y; py_add y length] in
  let rz := [z; py_add z length] in
  py_bind (np_meshgrid ry rz) (fun '(Y, Z) =>
  let r_1 := [x; x] in
  let r_2 := [py_add x length; py_add x length] in
  py_bind (np_meshgrid r_1 r_1) (fun '(p1, _) =>
  py_bind (np_meshgrid r_2 r_2) (fun '(p2, _) =>
  py_ret ((p1, Y, Z), (p2, Y, Z))))).

Definition plot_surface_xz_py (x y z length : A) : Py (@face A * @face A) :=
  let rx := [x; py_add x length] in
  let rz := [z; py_add z length] in
  py_bind (np_meshgrid rx rz) (fun '(X, Z) =>
  let r_1 := [y; y] in
  let r_2 := [py_add y length; py_add y length] in
  py_bind (np_meshgrid r_1 r_1) (fun '(p1, _) =>
  py_bind (np_meshgrid r_2 r_2) (fun '(p2, _) =>
  py_ret ((X, p1, Z), (X, p2, Z))))).

Definition plot_cube_py (corner : list A) (length : A) : Py (list (@face A)) :=
  py_bind (py_lift (getitem corner 0)) (fun x =>
  py_bind (py_lift (getitem corner 1)) (fun y =>
  py_bind (py_lift (getitem corner 2)) (fun z =>
  py_bind (plot_surface_xy_py x y z length) (fun '(a, b) =>
  py_bind (plot_surface_yz_py x y z length) (fun '(c, d) =>
  py_bind (plot_surface_xz_py x y z length) (fun '(e, f) =>
  py_ret [a; b; c; d; e; f])))))).

(** The library call is a function of its arguments: it answers as
    [meshgrid] and leaves the state alone. *)
Definition numpy_is_pure : Prop :=
  forall xs ys g, np_meshgrid xs ys g = (Ok (meshgrid xs ys), g).

End PythonLevel.

(** Two stand-ins for the library over a state that counts the calls: one
    that answers as [meshgrid], one whose answer depends on the count. *)
Definition counting_meshgrid (xs ys : list Z) : Py (G := nat) (grid * grid) :=
  fun calls => (Ok (meshgrid xs ys), S calls).

Definition moody_meshgrid (xs ys : list Z) : Py (G := nat) (grid * grid) :=
  fun calls =>
    (Ok (if Nat.even calls then meshgrid xs ys else meshgrid ys xs), S calls).

Definition steady_meshgrid (xs ys : list Z) : Py (G := nat) (grid * grid) :=
  fun calls => (Ok (meshgrid xs ys), calls).

(** ** Coordinates in binary64 *)

(** The comparisons Python makes on floats: [a < b] and [a == b]. *)
Definition float_lt (a b : float) : Prop := PrimFloat.ltb a b = true.
Definition float_eq (a b : float) : Prop := PrimFloat.eqb a b = true.

(** Every entry of the grid compares equal to [v]. *)
Definition float_constant_grid (v : float) (g : @grid float) : Prop :=
  Forall (Forall (fun a => float_eq a v)) g.

(** The four sample points of the face compare equal to [(x, y, z)]. *)
Definition float_collapsed_face (x y z : float) (d : @face float) : Prop :=
  float_constant_grid x (face_X d) /\ float_constant_grid y (face_Y d) /\
  float_constant_grid z (face_Z d).

Definition float_eq_dec (a b : float) : {a = b} + {a <> b}.
Proof.
  destruct (PrimFloat.Leibniz.eqb a b) eqn:E.
  - left. apply FloatAxioms.Leibniz.eqb_spec. exact E.
  - right. intros Heq. apply FloatAxioms.Leibniz.eqb_spec in Heq. congruence.
Defined.

Definition point_eq_dec_float (p q : float * float * float) :
  {p = q} + {p <> q}.
Proof. repeat decide equality; apply float_eq_dec. Defined.

(** * Verified properties *)

(** ** Geometry layer *)

Section GeometryFacts.
Context {A : Type} `{PyNum A}.

Lemma meshgrid_pair (a b c d : A) :
  meshgrid [a; b] [c; d] = ([[a; b]; [a; b]], [[c; c]; [d; d]]).
Proof. reflexivity. Qed.

Lemma plot_surface_xy_eq (x y z L : A) :
  plot_surface_xy x y z L =
  (([[x; py_add x L]; [x; py_add x L]],
    [[y; y]; [py_add y L; py_add y L]],
    [[z; z]; [z; z]]),
   ([[x; py_add x L]; [x; py_add x L]],
    [[y; y]; [py_add y L; py_add y L]],
    [[py_add z L; py_add z L]; [py_add z L; py_add z L]])).
Proof. reflexivity. Qed.

Lemma plot_surface_yz_eq (x y z L : A) :
  plot_surface_yz x y z L =
  (([[x; x]; [x; x]],
    [[y; py_add y L]; [y; py_add y L]],
    [[z; z]; [py_add z L; py_add z L]]),
   ([[py_add x L; py_add x L]; [py_add x L; py_add x L]],
    [[y; py_add y L]; [y; py_add y L]],
    [[z; z]; [py_add z L; py_add z L]])).
Proof. reflexivity. Qed.

Lemma plot_surface_xz_eq (x y z L : A) :
  plot_surface_xz x y z L =
  (([[x; py_add x L]; [x; py_add x L]],
    [[y; y]; [y; y]],
    [[z; z]; [py_add z L; py_add z L]]),
   ([[x; py_add x L]; [x; py_add x L]],
    [[py_add y L; py_add y L]; [py_add y L; py_add y L]],
    [[z; z]; [py_add z L; py_add z L]])).
Proof. reflexivity. Qed.

Lemma is_2x2_intro (a b c d : A) : is_2x2 [[a; b]; [c; d]].
Proof. split; [reflexivity | repeat constructor]. Qed.

Lemma constant_grid_intro (v : A) : constant_grid v [[v; v]; [v; v]].
Proof. repeat constructor. Qed.

Lemma values_in_columns (lo hi : A) (g : grid) :
  spans_columns lo hi g -> values_in [lo; hi] g.
Proof. intros ->. repeat first [apply Forall_cons | apply Forall_nil]; simpl; auto. Qed.

Lemma values_in_rows (lo hi : A) (g : grid) :
  spans_rows lo hi g -> values_in [lo; hi] g.
Proof. intros ->. repeat first [apply Forall_cons | apply Forall_nil]; simpl; auto. Qed.

Lemma face_2x2_xy (x y z L : A) :
  face_2x2 (fst (plot_surface_xy x y z L)) /\
  face_2x2 (snd (plot_surface_xy x y z L)).
Proof. rewrite plot_surface_xy_eq. repeat split; repeat constructor. Qed.

Lemma face_2x2_yz (x y z L : A) :
  face_2x2 (fst (plot_surface_yz x y z L)) /\
  face_2x2 (snd (plot_surface_yz x y z L)).
Proof. rewrite plot_surface_yz_eq. repeat split; repeat constructor. Qed.

Lemma face_2x2_xz (x y z L : A) :
  face_2x2 (fst (plot_surface_xz x y z L)) /\
  face_2x2 (snd (plot_surface_xz x y z L)).
Proof. rewrite plot_surface_xz_eq. repeat split; repeat constructor. Qed.

(** On a 3-element corner the three subscripts succeed and the result is
    the six faces in the order of the source's return statement. *)
Lemma plot_cube_point3 (x y z L : A) :
  plot_cube (point3 x y z) L =
  Ok [fst (plot_surface_xy x y z L); snd (plot_surface_xy x y z L);
      fst (plot_surface_yz x y z L); snd (plot_surface_yz x y z L);
      fst (plot_surface_xz x y z L); snd (plot_surface_xz x y z L)].
Proof. reflexivity. Qed.

Lemma plot_cube_faces_2x2 (x y z L : A) (faces : list face) :
  plot_cube (point3 x y z) L = Ok faces ->
  List.length faces = 6%nat /\ Forall face_2x2 faces.
Proof.
  rewrite plot_cube_point3. intros E. injection E as <-.
  split; [reflexivity |].
  destruct (face_2x2_xy x y z L), (face_2x2_yz x y z L), (face_2x2_xz x y z L).
  repeat constructor; assumption.
Qed.

(** C1. For every corner point and every length, [plot_cube] returns exactly
    six faces: the pair of [plot_surface_xy] (low, high), then the pair of
    [plot_surface_yz], then the pair of [plot_surface_xz]; every face is made
    of three 2x2 grids. *)
Theorem plot_cube_six_faces (x y z L : A) :
  exists faces : list face,
    plot_cube (point3 x y z) L = Ok faces /\
    faces = [fst (plot_surface_xy x y z L); snd (plot_surface_xy x y z L);
             fst (plot_surface_yz x y z L); snd (plot_surface_yz x y z L);
             fst (plot_surface_xz x y z L); snd (plot_surface_xz x y z L)] /\
    List.length faces = 6%nat /\
    Forall face_2x2 faces.
Proof.
  eexists. split; [apply plot_cube_point3 |]. split; [reflexivity |].
  apply (plot_cube_faces_2x2 x y z L), plot_cube_point3.
Qed.

(** C2. [plot_surface_xy] returns two faces.  The Z-grid of the first is
    constantly [z], that of the second constantly [z + L]; in both, the
    X-grid takes its values in [{x, x + L}] (one per column) and the Y-grid
    in [{y, y + L}] (one per row); every grid is 2x2. *)
Theorem plot_surface_xy_grids (x y z L : A) :
  let lo := fst (plot_surface_xy x y z L) in
  let hi := snd (plot_surface_xy x y z L) in
  constant_grid z (face_Z lo) /\
  constant_grid (py_add z L) (face_Z hi) /\
  values_in [x; py_add x L] (face_X lo) /\
  values_in [y; py_add y L] (face_Y lo) /\
  values_in [x; py_add x L] (face_X hi) /\
  values_in [y; py_add y L] (face_Y hi) /\
  spans_columns x (py_add x L) (face_X lo) /\
  spans_rows y (py_add y L) (face_Y lo) /\
  spans_columns x (py_add x L) (face_X hi) /\
  spans_rows y (py_add y L) (face_Y hi) /\
  face_2x2 lo /\ face_2x2 hi.
Proof.
  intros lo hi. subst lo hi. rewrite plot_surface_xy_eq.
  cbn [fst snd face_X face_Y face_Z].
  repeat split;
    first [ apply constant_grid_intro
          | apply values_in_columns; reflexivity
          | apply values_in_rows; reflexivity
          | apply is_2x2_intro ].
Qed.

(** C3. [plot_surface_yz] returns two faces whose X-grids are constantly
    [x] and [x + L], with the Y-grid spanning [y, y + L] along the columns
    and the Z-grid spanning [z, z + L] along the rows; [plot_surface_xz]
    returns two faces whose Y-grids are constantly [y] and [y + L], with the
    X-grid spanning [x, x + L] and the Z-grid spanning [z, z + L]. *)
Theorem plot_surface_yz_xz_grids (x y z L : A) :
  let yz_lo := fst (plot_surface_yz x y z L) in
  let yz_hi := snd (plot_surface_yz x y z L) in
  let xz_lo := fst (plot_surface_xz x y z L) in
  let xz_hi := snd (plot_surface_xz x y z L) in
  (constant_grid x (face_X yz_lo) /\
   constant_grid (py_add x L) (face_X yz_hi) /\
   spans_columns y (py_add y L) (face_Y yz_lo) /\
   spans_rows z (py_add z L) (face_Z yz_lo) /\
   spans_columns y (py_add y L) (face_Y yz_hi) /\
   spans_rows z (py_add z L) (face_Z yz_hi) /\
   face_2x2 yz_lo /\ face_2x2 yz_hi) /\
  (constant_grid y (face_Y xz_lo) /\
   constant_grid (py_add y L) (face_Y xz_hi) /\
   spans_columns x (py_add x L) (face_X xz_lo) /\
   spans_rows z (py_add z L) (face_Z xz_lo) /\
   spans_columns x (py_add x L) (face_X xz_hi) /\
   spans_rows z (py_add z L) (face_Z xz_hi) /\
   face_2x2 xz_lo /\ face_2x2 xz_hi).
Proof.
  intros yz_lo yz_hi xz_lo xz_hi. subst yz_lo yz_hi xz_lo xz_hi.
  rewrite plot_surface_yz_eq, plot_surface_xz_eq.
  cbn [fst snd face_X face_Y face_Z].
  repeat split;
    first [ apply constant_grid_intro
          | apply is_2x2_intro ].
Qed.

Lemma descending_columns_intro (lt : A -> A -> Prop) (a L : A) :
  lt (py_add a L) a ->
  descending_columns lt [[a; py_add a L]; [a; py_add a L]].
Proof. intros HL. exists a, (py_add a L). split; [reflexivity | exact HL]. Qed.

Lemma descending_rows_intro (lt : A -> A -> Prop) (a L : A) :
  lt (py_add a L) a ->
  descending_rows lt [[a; a]; [py_add a L; py_add a L]].
Proof. intros HL. exists a, (py_add a L). split; [reflexivity | exact HL]. Qed.

End GeometryFacts.

(** ** No validation of the length, in binary64 *)

(** Adding a zero (of either sign) to a float that is not NaN gives a float
    that compares equal to it; the sign of a zero may change. *)
Lemma float_add_numeric_zero (x L : float) :
  float_eq L 0 -> float_eq x x -> float_eq (PrimFloat.add x L) x.
Proof.
  unfold float_eq. rewrite !eqb_spec, add_spec.
  replace (Prim2SF 0) with (S754_zero false) by reflexivity.
  destruct (Prim2SF L) as [sl | sl | | sl ml el];
    destruct (Prim2SF x) as [sx | sx | | sx mx ex];
    try discriminate;
    try (destruct sl; discriminate);
    intros _ Hx.
  - destruct sx, sl; reflexivity.
  - destruct sx; reflexivity.
  - exact Hx.
Qed.

Lemma float_not_nan_eq (x : float) : PrimFloat.is_nan x = false -> float_eq x x.
Proof.
  unfold PrimFloat.is_nan, float_eq. intros Hx.
  apply negb_false_iff in Hx. exact Hx.
Qed.

Lemma float_constant_grid_intro (v a b c d : float) :
  float_eq a v -> float_eq b v -> float_eq c v -> float_eq d v ->
  float_constant_grid v [[a; b]; [c; d]].
Proof. intros Ha Hb Hc Hd. repeat constructor; assumption. Qed.




(** ** The monad and the specification rules *)

Section MonadFacts.
Context {A : Type} `{PyNum A} {tree node : Type}.

Lemma bind_ok {X Y : Type} (m : M A tree node X) (f : X -> M A tree node Y)
    (t : tree) (x : X) :
  res (m t) = Ok x ->
  bind m f t =
  {| res := res (f x (final (m t)));
     final := final (f x (final (m t)));
     trace := trace (m t) ++ trace (f x (final (m t))) |}.
Proof. intros E. unfold bind. cbv zeta. rewrite E. reflexivity. Qed.

Lemma bind_raise {X Y : Type} (m : M A tree node X) (f : X -> M A tree node Y)
    (t : tree) (e : exn) :
  res (m t) = Raise e ->
  bind m f t = {| res := Raise e; final := final (m t); trace := trace (m t) |}.
Proof. intros E. unfold bind. cbv zeta. rewrite E. reflexivity. Qed.

Lemma tree_call_eq {X : Type} (c : call A node)
    (m : tree -> result X * tree) (t : tree) :
  tree_call c m t =
  {| res := fst (m t); final := snd (m t);
     trace := [{| ev_call := c; ev_raised := raised_by (fst (m t)) |}] |}.
Proof. unfold tree_call. destruct (m t). reflexivity. Qed.

(** *** Rules for [yields] *)

Section Yields.
Context {V : Type} (view : event A node -> list V).

Lemma yields_ret {X : Type} (x : X) (P : X -> Prop) :
  P x -> yields view (ret x : M A tree node X) [] P.
Proof. intros Px t. exists x. repeat split; assumption. Qed.

Lemma yields_lift {X : Type} (r : result X) (x : X) (P : X -> Prop) :
  r = Ok x -> P x -> yields view (lift r : M A tree node X) [] P.
Proof. intros -> Px t. exists x. repeat split; assumption. Qed.

Lemma yields_plot_call (c : call A node) :
  yields view (plot_call c : M A tree node unit)
         (view {| ev_call := c; ev_raised := None |}) (fun _ => True).
Proof.
  intros t. exists tt. repeat split. simpl. apply app_nil_r.
Qed.

Lemma yields_tree_call {X : Type} (c : call A node)
    (m : tree -> result X * tree) (P : X -> Prop) :
  (forall t, exists x, fst (m t) = Ok x /\ P x) ->
  yields view (tree_call c m)
         (view {| ev_call := c; ev_raised := None |}) P.
Proof.
  intros Hm t. destruct (Hm t) as (x & Ex & Px).
  exists x. rewrite tree_call_eq. cbn [res trace]. rewrite Ex.
  repeat split; try assumption. simpl. apply app_nil_r.
Qed.

Lemma yields_bind {X Y : Type} (m : M A tree node X)
    (f : X -> M A tree node Y) (s1 s2 : list V)
    (P : X -> Prop) (Q : Y -> Prop) :
  yields view m s1 P ->
  (forall x, P x -> yields view (f x) s2 Q) ->
  yields view (bind m f) (s1 ++ s2) Q.
Proof.
  intros Hm Hf t.
  destruct (Hm t) as (x & Ex & Px & Tx).
  destruct (Hf x Px (final (m t))) as (y & Ey & Qy & Ty).
  exists y. rewrite (bind_ok m f t x Ex). cbn [res trace].
  repeat split; try assumption.
  rewrite flat_map_app, Tx, Ty. reflexivity.
Qed.

Lemma yields_list_comp {X Y : Type} (f : X -> M A tree node Y)
    (c : X -> list V) (P : X -> Y -> Prop) (l : list X) :
  (forall x, In x l -> yields view (f x) (c x) (P x)) ->
  yields view (list_comp f l) (flat_map c l) (fun ys => Forall2 P l ys).
Proof.
  induction l as [| a l IH]; intros Hf t.
  - exists []. repeat split. constructor.
  - destruct (Hf a (or_introl eq_refl) t) as (y & Ey & Py & Ty).
    destruct (IH (fun x Hx => Hf x (or_intror Hx)) (final (f a t)))
      as (ys & Eys & Pys & Tys).
    exists (y :: ys). cbn [list_comp].
    rewrite (bind_ok _ _ t y Ey). cbn [res trace].
    rewrite (bind_ok _ _ _ ys Eys). cbn [res trace ret].
    split; [reflexivity |]. split; [constructor; assumption |].
    rewrite app_nil_r, flat_map_app, Ty, Tys. reflexivity.
Qed.

Lemma yields_for_each {X : Type} (body : X -> M A tree node unit)
    (c : X -> list V) (l : list X) :
  (forall x, In x l -> yields view (body x) (c x) (fun _ => True)) ->
  yields view (for_each l body) (flat_map c l) (fun _ => True).
Proof.
  induction l as [| a l IH]; intros Hb t.
  - exists tt. repeat split.
  - destruct (Hb a (or_introl eq_refl) t) as (u & Eu & _ & Tu).
    destruct (IH (fun x Hx => Hb x (or_intror Hx)) (final (body a t)))
      as (u' & Eu' & _ & Tu').
    exists u'. cbn [for_each].
    rewrite (bind_ok _ _ t u Eu). cbn [res trace].
    split; [exact Eu' |]. split; [exact I |].
    rewrite flat_map_app, Tu, Tu'. reflexivity.
Qed.

Lemma yields_weaken {X : Type} (m : M A tree node X) (s : list V)
    (P Q : X -> Prop) :
  yields view m s P -> (forall x, P x -> Q x) -> yields view m s Q.
Proof.
  intros Hm HPQ t. destruct (Hm t) as (x & E & Px & T).
  exists x. repeat split; auto.
Qed.

Lemma yields_eq {X : Type} (m : M A tree node X) (s s' : list V)
    (P : X -> Prop) :
  yields view m s P -> s = s' -> yields view m s' P.
Proof. intros Hm <-. exact Hm. Qed.

End Yields.

End MonadFacts.

(** ** Subscripts and [range] *)

Lemma In_range (N i : Z) : In i (range N) <-> 0 <= i < N.
Proof.
  unfold range. rewrite in_map_iff. split.
  - intros (k & <- & Hk). apply in_seq in Hk. lia.
  - intros Hi. exists (Z.to_nat i). split; [lia |]. apply in_seq. lia.
Qed.

Lemma nth_error_range (N : Z) (k : nat) :
  (k < Z.to_nat N)%nat -> nth_error (range N) k = Some (Z.of_nat k).
Proof.
  intros Hk. unfold range. rewrite nth_error_map, nth_error_seq.
  destruct (Nat.ltb_spec k (Z.to_nat N)); [reflexivity | lia].
Qed.

Lemma length_range (N : Z) : List.length (range N) = Z.to_nat N.
Proof. unfold range. rewrite length_map, length_seq. reflexivity. Qed.

Lemma range_succ (n : nat) :
  range (Z.of_nat (S n)) = range (Z.of_nat n) ++ [Z.of_nat n].
Proof.
  unfold range. rewrite !Nat2Z.id, seq_S, map_app. reflexivity.
Qed.

Lemma Forall2_nth_error_l {X Y : Type} (P : X -> Y -> Prop)
    (l : list X) (ys : list Y) :
  Forall2 P l ys ->
  forall k x, nth_error l k = Some x ->
              exists y, nth_error ys k = Some y /\ P x y.
Proof.
  induction 1 as [| x0 y0 l ys Hxy _ IH]; intros k x Hk.
  - destruct k; discriminate.
  - destruct k as [| k]; simpl in Hk.
    + injection Hk as <-. exists y0. split; [reflexivity | assumption].
    + apply (IH k x Hk).
Qed.

Lemma getitem_nat {X : Type} (l : list X) (k : nat) (v : X) :
  nth_error l k = Some v -> getitem l (Z.of_nat k) = Ok v.
Proof.
  intros E. unfold getitem.
  destruct (Z.ltb_spec (Z.of_nat k) 0) as [Hneg | _]; [lia |].
  destruct (Z.ltb_spec (Z.of_nat k) 0) as [Hneg | _]; [lia |].
  rewrite Nat2Z.id, E. reflexivity.
Qed.

(** Subscripting, with an index from [range N], a list built by a
    comprehension over [range N]. *)
Lemma getitem_comprehension {Y : Type} (P : Z -> Y -> Prop)
    (N i : Z) (ys : list Y) :
  Forall2 P (range N) ys -> In i (range N) ->
  exists y, getitem ys i = Ok y /\ P i y.
Proof.
  intros HF Hi. apply In_range in Hi.
  destruct (Forall2_nth_error_l P _ _ HF (Z.to_nat i) (Z.of_nat (Z.to_nat i)))
    as (y & Ey & Py).
  - apply nth_error_range. lia.
  - exists y. rewrite Z2Nat.id in Py by lia. split; [| exact Py].
    rewrite <- (Z2Nat.id i) by lia. apply getitem_nat, Ey.
Qed.

(** ** The calls made on a well-behaved tree *)

Section CallSequence.
Context {A : Type} `{PyNum A} {tree node : Type}.
Variable methods : TreeMethods A tree node.
Variable N : Z.
Hypothesis WB : well_behaved methods N.

Lemma yields_nEndNodes :
  yields view_shape (nEndNodes methods) [S_nEndNodes] (eq N).
Proof.
  apply (yields_tree_call view_shape).
  intros t. exists N. split; [apply WB | reflexivity].
Qed.

Lemma yields_fetchEndNode (i : Z) :
  In i (range N) ->
  yields view_shape (fetchEndNode methods i) [S_fetchEndNode i]
         (fun _ => True).
Proof.
  intros Hi. apply In_range in Hi.
  apply (yields_tree_call view_shape).
  intros t. destruct WB as (_ & _ & Hfetch & _).
  destruct (Hfetch i t Hi) as (nd & E). exists nd. split; [exact E | exact I].
Qed.

Lemma yields_lowerBounds (nd : node) :
  yields view_shape (lowerBounds methods nd) [S_lowerBounds] is_point3.
Proof.
  apply (yields_tree_call view_shape).
  intros t. destruct WB as (_ & _ & _ & Hlow & _).
  destruct (Hlow nd t) as (x & y & z & E).
  exists (point3 x y z). split; [exact E | exists x, y, z; reflexivity].
Qed.

Lemma yields_upperBounds (nd : node) :
  yields view_shape (upperBounds methods nd) [S_upperBounds] is_point3.
Proof.
  apply (yields_tree_call view_shape).
  intros t. destruct WB as (_ & _ & _ & _ & Hup).
  destruct (Hup nd t) as (x & y & z & E).
  exists (point3 x y z). split; [exact E | exists x, y, z; reflexivity].
Qed.

Lemma getitem_point3_0 (l : list A) :
  is_point3 l -> exists v, getitem l 0 = Ok v.
Proof. intros (x & y & z & ->). exists x. reflexivity. Qed.

(** The first comprehension: one [fetchEndNode] and one [lowerBounds] per
    index, giving as many corners as indices, each a 3-D point. *)
Lemma yields_corners :
  yields view_shape
    (list_comp (fun i => bind (fetchEndNode methods i)
                              (fun nd => lowerBounds methods nd))
               (range N))
    (flat_map (fun i => [S_fetchEndNode i; S_lowerBounds]) (range N))
    (fun corners => Forall2 (fun _ c => is_point3 c) (range N) corners).
Proof.
  apply (yields_list_comp view_shape). intros i Hi.
  apply (yields_bind view_shape _ _ [S_fetchEndNode i] [S_lowerBounds]
           (fun _ => True)).
  - apply yields_fetchEndNode, Hi.
  - intros nd _. apply yields_lowerBounds.
Qed.

(** The second comprehension: per index, [fetchEndNode] then [upperBounds],
    and [fetchEndNode] again then [lowerBounds]. *)
Lemma yields_lengths :
  yields view_shape
    (list_comp
       (fun i =>
          bind (fetchEndNode methods i) (fun nu =>
          bind (upperBounds methods nu) (fun ub =>
          bind (lift (getitem ub 0)) (fun u0 =>
          bind (fetchEndNode methods i) (fun nl =>
          bind (lowerBounds methods nl) (fun lb =>
          bind (lift (getitem lb 0)) (fun l0 =>
          ret (py_sub u0 l0))))))))
       (range N))
    (flat_map (fun i => [S_fetchEndNode i; S_upperBounds;
                         S_fetchEndNode i; S_lowerBounds]) (range N))
    (fun lengths => Forall2 (fun _ _ => True) (range N) lengths).
Proof.
  apply (yields_list_comp view_shape). intros i Hi.
  apply (yields_bind view_shape _ _ [S_fetchEndNode i]
           [S_upperBounds; S_fetchEndNode i; S_lowerBounds] (fun _ => True));
    [apply yields_fetchEndNode, Hi | intros nu _].
  apply (yields_bind view_shape _ _ [S_upperBounds]
           [S_fetchEndNode i; S_lowerBounds] is_point3);
    [apply yields_upperBounds | intros ub Hub].
  destruct (getitem_point3_0 ub Hub) as (u0 & Eu0).
  apply (yields_bind view_shape _ _ [] [S_fetchEndNode i; S_lowerBounds]
           (fun _ => True));
    [apply (yields_lift view_shape _ u0); [exact Eu0 | exact I] | intros u0' _].
  apply (yields_bind view_shape _ _ [S_fetchEndNode i] [S_lowerBounds]
           (fun _ => True));
    [apply yields_fetchEndNode, Hi | intros nl _].
  apply (yields_bind view_shape _ _ [S_lowerBounds] [] is_point3);
    [apply yields_lowerBounds | intros lb Hlb].
  destruct (getitem_point3_0 lb Hlb) as (l0 & El0).
  apply (yields_bind view_shape _ _ [] [] (fun _ => True));
    [apply (yields_lift view_shape _ l0); [exact El0 | exact I] | intros l0' _].
  apply (yields_ret view_shape). exact I.
Qed.

(** One turn of the drawing loop: six [plot_surface] calls. *)
Lemma yields_draw_cube (corners : list (list A)) (lengths : list A) (i : Z) :
  Forall2 (fun _ c => is_point3 c) (range N) corners ->
  Forall2 (fun _ _ => True) (range N) lengths ->
  In i (range N) ->
  yields (tree := tree) (node := node) view_shape
    (bind (lift (getitem corners i)) (fun corner =>
     bind (lift (getitem lengths i)) (fun length =>
     bind (lift (plot_cube corner length)) (fun data =>
     for_each data
       (fun d => plot_surface (face_X d) (face_Y d) (face_Z d)
                              "purple" alpha_literal)))))
    (repeat (S_plot_surface "purple" alpha_literal) 6)
    (fun _ => True).
Proof.
  intros Hc Hl Hi.
  destruct (getitem_comprehension _ N i corners Hc Hi) as (c & Ec & Pc).
  destruct (getitem_comprehension _ N i lengths Hl Hi) as (L & EL & _).
  destruct Pc as (x & y & z & ->).
  apply (yields_bind view_shape _ _ [] _ (eq (point3 x y z)));
    [apply (yields_lift view_shape _ _ _ Ec); reflexivity | intros ? <-].
  apply (yields_bind view_shape _ _ [] _ (eq L));
    [apply (yields_lift view_shape _ _ _ EL); reflexivity | intros ? <-].
  apply (yields_bind view_shape _ _ [] _
           (fun data => List.length data = 6%nat)).
  - apply (yields_lift view_shape _ _ _ (plot_cube_point3 x y z L)).
    reflexivity.
  - intros data Hdata.
    do 7 (destruct data as [| ? data]; try discriminate Hdata).
    apply (yields_for_each view_shape _
             (fun _ => [S_plot_surface "purple" alpha_literal])).
    intros d _. apply (yields_plot_call view_shape).
Qed.

(** The whole call sequence of [grid_plotter] on a tree with [N] leaves. *)
Lemma grid_plotter_calls :
  yields view_shape (grid_plotter methods) (expected_calls N) (fun _ => True).
Proof.
  unfold grid_plotter, expected_calls.
  apply (yields_bind view_shape _ _ [S_figure] _ (fun _ => True));
    [apply (yields_plot_call view_shape) | intros _ _].
  apply (yields_bind view_shape _ _ [S_add_subplot 111 "3d"] _ (fun _ => True));
    [apply (yields_plot_call view_shape) | intros _ _].
  apply (yields_bind view_shape _ _ [S_grid false] _ (fun _ => True));
    [apply (yields_plot_call view_shape) | intros _ _].
  apply (yields_bind view_shape _ _ [S_axis "off"] _ (fun _ => True));
    [apply (yields_plot_call view_shape) | intros _ _].
  apply (yields_bind view_shape _ _ [S_nEndNodes] _ (eq N));
    [apply yields_nEndNodes | intros ? <-].
  eapply (yields_bind view_shape); [apply yields_corners | intros corners Hc].
  apply (yields_bind view_shape _ _ [S_nEndNodes] _ (eq N));
    [apply yields_nEndNodes | intros ? <-].
  eapply (yields_bind view_shape); [apply yields_lengths | intros lengths Hl].
  apply (yields_bind view_shape _ _ [S_nEndNodes] _ (eq N));
    [apply yields_nEndNodes | intros ? <-].
  apply (yields_for_each view_shape). intros i Hi.
  apply (yields_draw_cube corners lengths i Hc Hl Hi).
Qed.

End CallSequence.

(** ** Counting calls *)

Lemma count_app {X : Type} (p : X -> bool) (l l' : list X) :
  count p (l ++ l') = (count p l + count p l')%nat.
Proof. unfold count. rewrite filter_app, length_app. reflexivity. Qed.

Lemma count_map {X Y : Type} (f : X -> Y) (p : Y -> bool) (l : list X) :
  count p (map f l) = count (fun x => p (f x)) l.
Proof.
  unfold count. induction l as [| a l IH]; [reflexivity |].
  simpl. destruct (p (f a)); simpl; rewrite IH; reflexivity.
Qed.

Lemma count_flat_map_const {X Y : Type} (p : Y -> bool) (f : X -> list Y)
    (k : nat) (l : list X) :
  (forall x, In x l -> count p (f x) = k) ->
  count p (flat_map f l) = (k * List.length l)%nat.
Proof.
  induction l as [| a l IH]; intros Hk.
  - simpl. unfold count. simpl. lia.
  - cbn [flat_map]. rewrite count_app, (Hk a (or_introl eq_refl)), IH.
    + simpl. lia.
    + intros x Hx. apply Hk. right. exact Hx.
Qed.

(** In a sequence built per index of [range n], the calls that name the
    index [i] are those of the one turn for [i]. *)
Lemma count_flat_map_range (p : Z -> shape -> bool) (f : Z -> list shape)
    (k : nat) (i : Z) :
  (forall j, count (p i) (f j) = if j =? i then k else 0%nat) ->
  forall n : nat,
    count (p i) (flat_map f (range (Z.of_nat n))) =
    if (0 <=? i) && (i <? Z.of_nat n) then k else 0%nat.
Proof.
  intros Hf. induction n as [| n IH].
  - replace ((0 <=? i) && (i <? Z.of_nat 0)) with false; [reflexivity |].
    symmetry. apply andb_false_iff. destruct (Z.ltb_spec i (Z.of_nat 0)); [| auto].
    left. apply Z.leb_gt. lia.
  - rewrite range_succ, flat_map_app, count_app, IH. cbn [flat_map].
    rewrite app_nil_r, Hf.
    destruct (Z.eqb_spec (Z.of_nat n) i) as [<- | Hne].
    + replace (Z.of_nat n <? Z.of_nat n) with false by (symmetry; apply Z.ltb_ge; lia).
      replace (Z.of_nat n <? Z.of_nat (S n)) with true by (symmetry; apply Z.ltb_lt; lia).
      replace (0 <=? Z.of_nat n) with true by (symmetry; apply Z.leb_le; lia).
      cbn [andb]. lia.
    + destruct (Z.leb_spec 0 i); cbn [andb]; [| reflexivity].
      destruct (Z.ltb_spec i (Z.of_nat n)), (Z.ltb_spec i (Z.of_nat (S n)));
        lia.
Qed.

Section ShapeFacts.
Context {A : Type} {node : Type}.

Lemma flat_map_view_shape (tr : list (event A node)) :
  flat_map view_shape tr = map shape_of tr.
Proof. induction tr as [| e tr IH]; simpl; [| rewrite IH]; reflexivity. Qed.

Lemma is_draw_shape (e : event A node) :
  is_draw e = is_S_plot_surface (shape_of e).
Proof. unfold is_draw, shape_of. destruct (ev_call e); reflexivity. Qed.

Lemma shape_plot_surface (e : event A node) (color : string) (alpha : float) :
  shape_of e = S_plot_surface color alpha ->
  exists X Y Z, ev_call e = Call_plot_surface X Y Z color alpha.
Proof.
  unfold shape_of. destruct (ev_call e); try discriminate.
  intros E. injection E as -> ->. eauto.
Qed.

End ShapeFacts.

(** Counts over the expected call sequence. *)

Lemma expected_draws (N : Z) :
  count is_S_plot_surface (expected_calls N) = (6 * Z.to_nat N)%nat.
Proof.
  unfold expected_calls. rewrite !count_app.
  rewrite (count_flat_map_const _ _ 0) by (intros; reflexivity).
  rewrite (count_flat_map_const _ _ 0) by (intros; reflexivity).
  rewrite (count_flat_map_const _ _ 6) by (intros; reflexivity).
  rewrite length_range. unfold count. simpl. lia.
Qed.

Lemma expected_nEndNodes (N : Z) :
  count is_S_nEndNodes (expected_calls N) = 3%nat.
Proof.
  unfold expected_calls. rewrite !count_app.
  rewrite !(count_flat_map_const _ _ 0) by (intros; reflexivity).
  reflexivity.
Qed.

Lemma expected_lowerBounds (N : Z) :
  count is_S_lowerBounds (expected_calls N) = (2 * Z.to_nat N)%nat.
Proof.
  unfold expected_calls. rewrite !count_app.
  rewrite (count_flat_map_const _ _ 1) by (intros; reflexivity).
  rewrite (count_flat_map_const _ _ 1) by (intros; reflexivity).
  rewrite (count_flat_map_const _ _ 0) by (intros; reflexivity).
  rewrite length_range. unfold count. simpl. lia.
Qed.

Lemma expected_upperBounds (N : Z) :
  count is_S_upperBounds (expected_calls N) = Z.to_nat N.
Proof.
  unfold expected_calls. rewrite !count_app.
  rewrite (count_flat_map_const _ _ 0) by (intros; reflexivity).
  rewrite (count_flat_map_const _ _ 1) by (intros; reflexivity).
  rewrite (count_flat_map_const _ _ 0) by (intros; reflexivity).
  rewrite length_range. unfold count. simpl. lia.
Qed.

Lemma expected_fetchEndNode (N i : Z) :
  0 <= i < N ->
  count (is_S_fetchEndNode i) (expected_calls N) = 3%nat.
Proof.
  intros Hi. unfold expected_calls. rewrite !count_app.
  rewrite <- (Z2Nat.id N) by lia.
  rewrite (count_flat_map_range is_S_fetchEndNode _ 1),
          (count_flat_map_range is_S_fetchEndNode _ 2),
          (count_flat_map_const _ _ 0).
  - replace ((0 <=? i) && (i <? Z.of_nat (Z.to_nat N))) with true.
    + unfold count. simpl. lia.
    + symmetry. apply andb_true_iff. split; [apply Z.leb_le | apply Z.ltb_lt]; lia.
  - intros; reflexivity.
  - intros j. unfold count. simpl. destruct (j =? i); reflexivity.
  - intros j. unfold count. simpl. destruct (j =? i); reflexivity.
Qed.

Lemma expected_draws_purple (N : Z) :
  Forall (fun s => is_S_plot_surface s = true ->
                   s = S_plot_surface "purple" alpha_literal)
         (expected_calls N).
Proof.
  unfold expected_calls. rewrite !Forall_app.
  repeat split;
    try (apply Forall_flat_map, Forall_forall; intros ? _);
    repeat first [apply Forall_cons | apply Forall_nil];
    simpl; intros; try discriminate; reflexivity.
Qed.

Lemma count_ext {X : Type} (p q : X -> bool) (l : list X) :
  (forall x, p x = q x) -> count p l = count q l.
Proof.
  intros E. unfold count. rewrite (filter_ext p q E). reflexivity.
Qed.

(** ** The in-memory tree is well behaved *)

Lemma static_well_behaved {A : Type} (leaves : list (Leaf A)) :
  well_behaved (static_methods leaves) (Z.of_nat (List.length leaves)).
Proof.
  split; [lia |]. split; [reflexivity |]. split; [| split].
  - intros i t Hi. cbn [static_methods do_fetchEndNode fst].
    destruct (Z.ltb_spec i 0) as [Hneg | _]; [lia |].
    destruct (nth_error leaves (Z.to_nat i)) as [nd |] eqn:E.
    + exists nd. reflexivity.
    + apply nth_error_None in E. lia.
  - intros nd t. destruct (leaf_lower nd) as [[x y] z] eqn:E.
    exists x, y, z. cbn [static_methods do_lowerBounds fst]. rewrite E.
    reflexivity.
  - intros nd t. destruct (leaf_upper nd) as [[x y] z] eqn:E.
    exists x, y, z. cbn [static_methods do_upperBounds fst]. rewrite E.
    reflexivity.
Qed.

(** ** Rendering a tree with N leaves *)

Section WellBehavedTree.
Context {A : Type} `{PyNum A} {tree node : Type}.
Variable methods : TreeMethods A tree node.
Variable N : Z.
Hypothesis WB : well_behaved methods N.

Lemma grid_plotter_shapes (t : tree) :
  res (grid_plotter methods t) = Ok tt /\
  map shape_of (trace (grid_plotter methods t)) = expected_calls N.
Proof.
  destruct (grid_plotter_calls methods N WB t) as (u & E & _ & T).
  destruct u. rewrite flat_map_view_shape in T. split; assumption.
Qed.

(** C5. On a tree with [N] leaves [grid_plotter] returns normally after
    exactly [N * 6] calls of [plot_surface], every one of them with
    [color="purple"] and [alpha=0.01]. *)
Theorem grid_plotter_draw_count (t : tree) :
  res (grid_plotter methods t) = Ok tt /\
  Z.of_nat (count is_draw (trace (grid_plotter methods t))) = N * 6 /\
  Forall (fun e => is_draw e = true ->
                   exists X Y Z,
                     ev_call e = Call_plot_surface X Y Z "purple" alpha_literal)
         (trace (grid_plotter methods t)).
Proof.
  destruct (grid_plotter_shapes t) as (E & T).
  split; [exact E |]. split.
  - rewrite (count_ext _ _ _ is_draw_shape), <- (count_map shape_of), T.
    rewrite expected_draws. destruct WB as (HN & _). lia.
  - pose proof (expected_draws_purple N) as HP.
    rewrite <- T, Forall_map in HP.
    revert HP. apply Forall_impl. intros e He Hd.
    apply shape_plot_surface, He. rewrite <- is_draw_shape. exact Hd.
Qed.

(** C9. On a tree with [N] leaves the calls of [grid_plotter] are, in
    order: the four set-up calls; [nEndNodes], then for every index
    [fetchEndNode(i)] and [lowerBounds]; [nEndNodes] again, then for every
    index [fetchEndNode(i)], [upperBounds], [fetchEndNode(i)] once more and
    [lowerBounds]; [nEndNodes] a third time, then the drawing.  So
    [nEndNodes] is called three times and [fetchEndNode(i)] three times for
    every leaf index [i]. *)
Theorem grid_plotter_fetches_thrice (t : tree) :
  let calls := map shape_of (trace (grid_plotter methods t)) in
  res (grid_plotter methods t) = Ok tt /\
  calls = expected_calls N /\
  count is_S_nEndNodes calls = 3%nat /\
  (forall i, 0 <= i < N -> count (is_S_fetchEndNode i) calls = 3%nat) /\
  count is_S_lowerBounds calls = (2 * Z.to_nat N)%nat /\
  count is_S_upperBounds calls = Z.to_nat N.
Proof.
  intros calls. subst calls.
  destruct (grid_plotter_shapes t) as (E & ->).
  split; [exact E |]. split; [reflexivity |].
  split; [apply expected_nEndNodes |].
  split; [intros i Hi; apply expected_fetchEndNode, Hi |].
  split; [apply expected_lowerBounds | apply expected_upperBounds].
Qed.

End WellBehavedTree.

(** The two-leaf integer tree: twelve draws. *)
Lemma grid_plotter_draw_count_witness :
  res (grid_plotter (static_methods two_leaves) tt) = Ok tt /\
  Z.of_nat (count is_draw (trace (grid_plotter (static_methods two_leaves) tt)))
  = 2 * 6 /\
  Forall (fun e => is_draw e = true ->
                   exists X Y Z,
                     ev_call e = Call_plot_surface X Y Z "purple" alpha_literal)
         (trace (grid_plotter (static_methods two_leaves) tt)).
Proof.
  apply (grid_plotter_draw_count (static_methods two_leaves) 2
           (static_well_behaved two_leaves) tt).
Defined.

(** The two-leaf integer tree: each of the two indices is fetched thrice. *)
Lemma grid_plotter_fetches_thrice_witness :
  let calls :=
    map shape_of (trace (grid_plotter (static_methods two_leaves) tt)) in
  res (grid_plotter (static_methods two_leaves) tt) = Ok tt /\
  calls = expected_calls 2 /\
  count is_S_nEndNodes calls = 3%nat /\
  (forall i, 0 <= i < 2 -> count (is_S_fetchEndNode i) calls = 3%nat) /\
  count is_S_lowerBounds calls = (2 * Z.to_nat 2)%nat /\
  count is_S_upperBounds calls = Z.to_nat 2.
Proof.
  apply (grid_plotter_fetches_thrice (static_methods two_leaves) 2
           (static_well_behaved two_leaves) tt).
Defined.

(** ** Rendering a tree without leaves *)

Section EmptyTree.
Context {A : Type} `{PyNum A} {tree node : Type}.
Variable methods : TreeMethods A tree node.
Hypothesis no_leaf : forall t, fst (do_nEndNodes methods t) = Ok 0.

Lemma yields_nEndNodes_zero :
  yields view_shape (nEndNodes methods) [S_nEndNodes] (eq 0).
Proof.
  apply (yields_tree_call view_shape).
  intros t. exists 0. split; [apply no_leaf | reflexivity].
Qed.

Lemma grid_plotter_calls_empty :
  yields view_shape (grid_plotter methods)
    ([S_figure] ++ [S_add_subplot 111 "3d"] ++ [S_grid false] ++
     [S_axis "off"] ++ [S_nEndNodes] ++ [] ++ [S_nEndNodes] ++ [] ++
     [S_nEndNodes] ++ [])
    (fun _ => True).
Proof.
  unfold grid_plotter.
  apply (yields_bind view_shape _ _ _ _ (fun _ => True));
    [apply (yields_plot_call view_shape) | intros _ _].
  apply (yields_bind view_shape _ _ _ _ (fun _ => True));
    [apply (yields_plot_call view_shape) | intros _ _].
  apply (yields_bind view_shape _ _ _ _ (fun _ => True));
    [apply (yields_plot_call view_shape) | intros _ _].
  apply (yields_bind view_shape _ _ _ _ (fun _ => True));
    [apply (yields_plot_call view_shape) | intros _ _].
  apply (yields_bind view_shape _ _ _ _ (eq 0));
    [apply yields_nEndNodes_zero | intros ? <-].
  change (range 0) with (@nil Z). cbn [list_comp].
  apply (yields_bind view_shape _ _ _ _ (fun _ => True));
    [apply (yields_ret view_shape); exact I | intros corners _].
  apply (yields_bind view_shape _ _ _ _ (eq 0));
    [apply yields_nEndNodes_zero | intros ? <-].
  change (range 0) with (@nil Z). cbn [list_comp].
  apply (yields_bind view_shape _ _ _ _ (fun _ => True));
    [apply (yields_ret view_shape); exact I | intros lengths _].
  apply (yields_bind view_shape _ _ _ _ (eq 0));
    [apply yields_nEndNodes_zero | intros ? <-].
  change (range 0) with (@nil Z). cbn [for_each].
  apply (yields_ret view_shape). exact I.
Qed.

(** C6. When [nEndNodes] answers zero, [grid_plotter] returns normally
    without a single [plot_surface] call: after the set-up of the figure it
    only asks [nEndNodes] three times. *)
Theorem grid_plotter_empty_tree (t : tree) :
  res (grid_plotter methods t) = Ok tt /\
  count is_draw (trace (grid_plotter methods t)) = 0%nat /\
  map shape_of (trace (grid_plotter methods t)) =
  [S_figure; S_add_subplot 111 "3d"; S_grid false; S_axis "off";
   S_nEndNodes; S_nEndNodes; S_nEndNodes].
Proof.
  destruct (grid_plotter_calls_empty t) as (u & E & _ & T).
  destruct u. rewrite flat_map_view_shape in T. cbn [app] in T.
  split; [exact E |]. split; [| exact T].
  rewrite (count_ext _ _ _ is_draw_shape), <- (count_map shape_of), T.
  reflexivity.
Qed.

End EmptyTree.

(** The integer tree without leaves. *)
Lemma grid_plotter_empty_tree_witness :
  res (grid_plotter (static_methods no_leaves) tt) = Ok tt /\
  count is_draw (trace (grid_plotter (static_methods no_leaves) tt)) = 0%nat /\
  map shape_of (trace (grid_plotter (static_methods no_leaves) tt)) =
  [S_figure; S_add_subplot 111 "3d"; S_grid false; S_axis "off";
   S_nEndNodes; S_nEndNodes; S_nEndNodes].
Proof.
  apply (grid_plotter_empty_tree (static_methods no_leaves)
           (fun t => eq_refl) tt).
Defined.

(** ** Purity of [plot_cube] *)

Section Purity.
Context {A : Type} `{PyNum A} {G : Type}.
Variable np_meshgrid : list A -> list A -> Py (G := G) (@grid A * @grid A).

(** *** With a library that is a function of its arguments *)

Section PureLibrary.
Hypothesis np_pure : numpy_is_pure np_meshgrid.

Lemma plot_surface_xy_py_pure (x y z L : A) (g : G) :
  plot_surface_xy_py np_meshgrid x y z L g = (Ok (plot_surface_xy x y z L), g).
Proof.
  unfold plot_surface_xy_py, py_bind. cbv zeta.
  rewrite np_pure. cbn [meshgrid map].
  rewrite np_pure. cbn [meshgrid map].
  rewrite np_pure. reflexivity.
Qed.

Lemma plot_surface_yz_py_pure (x y z L : A) (g : G) :
  plot_surface_yz_py np_meshgrid x y z L g = (Ok (plot_surface_yz x y z L), g).
Proof.
  unfold plot_surface_yz_py, py_bind. cbv zeta.
  rewrite np_pure. cbn [meshgrid map].
  rewrite np_pure. cbn [meshgrid map].
  rewrite np_pure. reflexivity.
Qed.

Lemma plot_surface_xz_py_pure (x y z L : A) (g : G) :
  plot_surface_xz_py np_meshgrid x y z L g = (Ok (plot_surface_xz x y z L), g).
Proof.
  unfold plot_surface_xz_py, py_bind. cbv zeta.
  rewrite np_pure. cbn [meshgrid map].
  rewrite np_pure. cbn [meshgrid map].
  rewrite np_pure. reflexivity.
Qed.

(** Run by the interpreter, [plot_cube] returns what the function
    [plot_cube] computes and hands the state back as it received it. *)
Lemma plot_cube_py_pure (corner : list A) (L : A) (g : G) :
  plot_cube_py np_meshgrid corner L g = (plot_cube corner L, g).
Proof.
  unfold plot_cube_py, plot_cube, py_bind, py_lift.
  destruct (getitem corner 0) as [x | e]; [| reflexivity].
  destruct (getitem corner 1) as [y | e]; [| reflexivity].
  destruct (getitem corner 2) as [z | e]; [| reflexivity].
  rewrite plot_surface_xy_py_pure, plot_surface_xy_eq. cbv beta iota.
  rewrite plot_surface_yz_py_pure, plot_surface_yz_eq. cbv beta iota.
  rewrite plot_surface_xz_py_pure, plot_surface_xz_eq. reflexivity.
Qed.

End PureLibrary.

(** *** With any library *)

Lemma frame_py_bind {X Y : Type} (I : G -> Prop) (m : Py X) (f : X -> Py Y) :
  (forall g, I g -> I (snd (m g))) ->
  (forall x g, I g -> I (snd (f x g))) ->
  forall g, I g -> I (snd (py_bind m f g)).
Proof.
  intros Hm Hf g Hg. unfold py_bind. specialize (Hm g Hg).
  destruct (m g) as [[x | e] g']; cbn [snd] in *; [apply Hf |]; exact Hm.
Qed.

Section Frame.
Variable I : G -> Prop.
Hypothesis np_keeps : forall xs ys g, I g -> I (snd (np_meshgrid xs ys g)).

Ltac frame_steps :=
  repeat first
    [ apply frame_py_bind; [| intros [? ?]]
    | apply np_keeps
    | intros ? ?; assumption ].

Lemma frame_plot_surface_xy (x y z L : A) (g : G) :
  I g -> I (snd (plot_surface_xy_py np_meshgrid x y z L g)).
Proof. revert g. unfold plot_surface_xy_py. cbv zeta. frame_steps. Qed.

Lemma frame_plot_surface_yz (x y z L : A) (g : G) :
  I g -> I (snd (plot_surface_yz_py np_meshgrid x y z L g)).
Proof. revert g. unfold plot_surface_yz_py. cbv zeta. frame_steps. Qed.

Lemma frame_plot_surface_xz (x y z L : A) (g : G) :
  I g -> I (snd (plot_surface_xz_py np_meshgrid x y z L g)).
Proof. revert g. unfold plot_surface_xz_py. cbv zeta. frame_steps. Qed.

Lemma frame_plot_cube (corner : list A) (L : A) (g : G) :
  I g -> I (snd (plot_cube_py np_meshgrid corner L g)).
Proof.
  revert g. unfold plot_cube_py.
  apply frame_py_bind; [intros g Hg; exact Hg | intros x].
  apply frame_py_bind; [intros g Hg; exact Hg | intros y].
  apply frame_py_bind; [intros g Hg; exact Hg | intros z].
  apply frame_py_bind; [apply frame_plot_surface_xy | intros [a b]].
  apply frame_py_bind; [apply frame_plot_surface_yz | intros [c d]].
  apply frame_py_bind; [apply frame_plot_surface_xz | intros [e f]].
  intros g Hg. exact Hg.
Qed.

End Frame.


End Purity.


(** What the hypothesis on the library is for.  A library that counts its
    calls is called nine times by [plot_cube], and not at all when the
    corner is too short; with a library whose answers depend on its state,
    two runs on the same arguments differ. *)
Example plot_cube_py_nine_calls :
  snd (plot_cube_py counting_meshgrid (point3 1 2 3) 4 0%nat) = 9%nat /\
  fst (plot_cube_py counting_meshgrid (point3 1 2 3) 4 0%nat) =
  plot_cube (point3 1 2 3) 4 /\
  plot_cube_py counting_meshgrid [1; 2] 4 0%nat = (Raise IndexError, 0%nat).
Proof. repeat split; vm_compute; reflexivity. Qed.

Example plot_cube_py_moody_library :
  fst (plot_cube_py moody_meshgrid (point3 1 2 3) 4 0%nat) <>
  fst (plot_cube_py moody_meshgrid (point3 1 2 3) 4 1%nat).
Proof. vm_compute. discriminate. Qed.

(** ** Order of the tree reads and the draws *)

Section ReadsBeforeDraws.
Context {A : Type} `{PyNum A} {tree node : Type}.

(** *** Computations that do not draw *)

Lemma quiet_ret {X : Type} (x : X) : quiet (ret x : M A tree node X).
Proof. intros t. split; [constructor | intros; constructor]. Qed.

Lemma quiet_lift {X : Type} (r : result X) : quiet (lift r : M A tree node X).
Proof. intros t. split; [constructor | intros; constructor]. Qed.

Lemma quiet_plot_call (c : call A node) :
  is_draw {| ev_call := c; ev_raised := None |} = false ->
  quiet (plot_call c : M A tree node unit).
Proof.
  intros Hc t. split; [| intros _ _]; repeat constructor. exact Hc.
Qed.

Lemma quiet_tree_call {X : Type} (c : call A node)
    (m : tree -> result X * tree) :
  is_tree_call {| ev_call := c; ev_raised := None |} = true ->
  quiet (tree_call c m).
Proof.
  intros Hc t. rewrite tree_call_eq. cbn [res trace]. split.
  - repeat constructor. destruct c; try discriminate Hc; reflexivity.
  - intros x E. rewrite E. repeat constructor.
Qed.

Lemma quiet_bind {X Y : Type} (m : M A tree node X)
    (f : X -> M A tree node Y) :
  quiet m -> (forall x, quiet (f x)) -> quiet (bind m f).
Proof.
  intros Hm Hf t. destruct (Hm t) as (Dm & Rm).
  destruct (res (m t)) as [x | e] eqn:E.
  - rewrite (bind_ok m f t x E). cbn [res trace].
    destruct (Hf x (final (m t))) as (Df & Rf). split.
    + apply Forall_app. split; assumption.
    + intros y Ey. apply Forall_app. split; [apply (Rm x eq_refl) | apply (Rf y Ey)].
  - rewrite (bind_raise m f t e E). cbn [res trace].
    split; [exact Dm | discriminate].
Qed.

Lemma quiet_list_comp {X Y : Type} (f : X -> M A tree node Y) (l : list X) :
  (forall x, quiet (f x)) -> quiet (list_comp f l).
Proof.
  intros Hf. induction l as [| a l IH]; cbn [list_comp].
  - apply quiet_ret.
  - apply quiet_bind; [apply Hf | intros y].
    apply quiet_bind; [exact IH | intros ys; apply quiet_ret].
Qed.

(** *** Computations that only draw *)

Lemma draws_only_lift {X : Type} (r : result X) :
  draws_only (lift r : M A tree node X).
Proof. intros t. constructor. Qed.

Lemma draws_only_plot_surface (X Y Z : grid) (color : string) (alpha : float) :
  draws_only (plot_surface X Y Z color alpha : M A tree node unit).
Proof. intros t. repeat constructor. Qed.

Lemma draws_only_bind {X Y : Type} (m : M A tree node X)
    (f : X -> M A tree node Y) :
  draws_only m -> (forall x, draws_only (f x)) -> draws_only (bind m f).
Proof.
  intros Hm Hf t. destruct (res (m t)) as [x | e] eqn:E.
  - rewrite (bind_ok m f t x E). cbn [trace].
    apply Forall_app. split; [apply Hm | apply Hf].
  - rewrite (bind_raise m f t e E). apply Hm.
Qed.

Lemma draws_only_for_each {X : Type} (body : X -> M A tree node unit)
    (l : list X) :
  (forall x, draws_only (body x)) -> draws_only (for_each l body).
Proof.
  intros Hb. induction l as [| a l IH]; cbn [for_each].
  - intros t. constructor.
  - apply draws_only_bind; [apply Hb | intros _; exact IH].
Qed.

(** *** Reads, then draws *)

Lemma reads_then_draws_only {X : Type} (m : M A tree node X) (t : tree) :
  draws_only m -> reads_then_draws (m t).
Proof.
  intros Hm. exists [], (trace (m t)).
  split; [reflexivity |]. split; [constructor |].
  split; [apply Hm | intros _; constructor].
Qed.

Lemma reads_then_draws_bind {X Y : Type} (m : M A tree node X)
    (f : X -> M A tree node Y) (t : tree) :
  quiet m -> (forall x t', reads_then_draws (f x t')) ->
  reads_then_draws (bind m f t).
Proof.
  intros Hm Hf. destruct (Hm t) as (Dm & Rm).
  destruct (res (m t)) as [x | e] eqn:E.
  - destruct (Hf x (final (m t))) as (reads & draws & T & Hr & Hd & Hn).
    exists (trace (m t) ++ reads), draws.
    rewrite (bind_ok m f t x E). cbn [res trace].
    split; [rewrite T; apply app_assoc |].
    split; [apply Forall_app; split; assumption |].
    split; [exact Hd |].
    intros Hpre. apply Forall_app. split; [apply (Rm x eq_refl) |].
    apply Hn. exact Hpre.
  - exists (trace (m t)), [].
    rewrite (bind_raise m f t e E). cbn [res trace].
    split; [symmetry; apply app_nil_r |].
    split; [exact Dm |]. split; [constructor |].
    intros [Hne | (x & Ex)]; [contradiction Hne; reflexivity | discriminate Ex].
Qed.

Lemma grid_plotter_phases (methods : TreeMethods A tree node) (t : tree) :
  reads_then_draws (grid_plotter methods t).
Proof.
  unfold grid_plotter.
  apply reads_then_draws_bind; [apply quiet_plot_call; reflexivity | intros _ ?].
  apply reads_then_draws_bind; [apply quiet_plot_call; reflexivity | intros _ ?].
  apply reads_then_draws_bind; [apply quiet_plot_call; reflexivity | intros _ ?].
  apply reads_then_draws_bind; [apply quiet_plot_call; reflexivity | intros _ ?].
  apply reads_then_draws_bind; [apply quiet_tree_call; reflexivity | intros n1 ?].
  apply reads_then_draws_bind.
  { apply quiet_list_comp. intros i.
    apply quiet_bind; [apply quiet_tree_call; reflexivity | intros nd].
    apply quiet_tree_call; reflexivity. }
  intros corners ?.
  apply reads_then_draws_bind; [apply quiet_tree_call; reflexivity | intros n2 ?].
  apply reads_then_draws_bind.
  { apply quiet_list_comp. intros i.
    apply quiet_bind; [apply quiet_tree_call; reflexivity | intros nu].
    apply quiet_bind; [apply quiet_tree_call; reflexivity | intros ub].
    apply quiet_bind; [apply quiet_lift | intros u0].
    apply quiet_bind; [apply quiet_tree_call; reflexivity | intros nl].
    apply quiet_bind; [apply quiet_tree_call; reflexivity | intros lb].
    apply quiet_bind; [apply quiet_lift | intros l0].
    apply quiet_ret. }
  intros lengths ?.
  apply reads_then_draws_bind; [apply quiet_tree_call; reflexivity | intros n3 ?].
  apply reads_then_draws_only.
  apply draws_only_for_each. intros i.
  apply draws_only_bind; [apply draws_only_lift | intros corner].
  apply draws_only_bind; [apply draws_only_lift | intros length].
  apply draws_only_bind; [apply draws_only_lift | intros data].
  apply draws_only_for_each. intros d. apply draws_only_plot_surface.
Qed.

(** C10. Whatever the tree does, the log of [grid_plotter] is a stretch
    without any [plot_surface] followed by a stretch of [plot_surface] calls
    only: every call on the tree comes before the first draw.  Hence, when a
    call on the tree has raised, [grid_plotter] has raised and no face has
    been submitted. *)
Theorem grid_plotter_reads_before_draws
    (methods : TreeMethods A tree node) (t : tree) :
  (exists reads draws,
      trace (grid_plotter methods t) = reads ++ draws /\
      Forall (fun e => is_draw e = false) reads /\
      Forall (fun e => is_draw e = true /\ is_tree_call e = false) draws) /\
  (Exists (fun e => is_tree_call e = true /\ has_raised e = true)
          (trace (grid_plotter methods t)) ->
   (exists e, res (grid_plotter methods t) = Raise e) /\
   Forall (fun e => is_draw e = false) (trace (grid_plotter methods t))).
Proof.
  destruct (grid_plotter_phases methods t)
    as (reads & draws & T & Hr & Hd & Hn).
  split.
  - exists reads, draws. split; [exact T |]. split; [exact Hr |].
    revert Hd. apply Forall_impl. intros e (? & ? & _). split; assumption.
  - intros Hex. rewrite T in Hex. apply Exists_app in Hex.
    assert (Hbad : ~ Forall (fun e => has_raised e = false) reads).
    { intros Hall. destruct Hex as [Hex | Hex]; apply Exists_exists in Hex;
        destruct Hex as (e & Hin & Htree & Hraised).
      - rewrite Forall_forall in Hall. rewrite (Hall e Hin) in Hraised.
        discriminate.
      - rewrite Forall_forall in Hd. destruct (Hd e Hin) as (_ & Hnt & _).
        rewrite Hnt in Htree. discriminate. }
    split.
    + destruct (res (grid_plotter methods t)) as [x | e] eqn:E.
      * contradiction Hbad. apply Hn. right. exists x. reflexivity.
      * exists e. reflexivity.
    + destruct draws as [| d draws].
      * rewrite T, app_nil_r. exact Hr.
      * contradiction Hbad. apply Hn. left. discriminate.
Qed.

End ReadsBeforeDraws.

(** A tree whose [upperBounds] raises: the exception crosses
    [grid_plotter] before anything has been drawn. *)
Example broken_upper_run :
  res (grid_plotter broken_upper_methods tt) = Raise (TreeError "upperBounds") /\
  map shape_of (trace (grid_plotter broken_upper_methods tt)) =
  [S_figure; S_add_subplot 111 "3d"; S_grid false; S_axis "off";
   S_nEndNodes; S_fetchEndNode 0; S_lowerBounds;
   S_fetchEndNode 1; S_lowerBounds;
   S_nEndNodes; S_fetchEndNode 0; S_upperBounds] /\
  map has_raised (trace (grid_plotter broken_upper_methods tt)) =
  [false; false; false; false; false; false; false; false; false;
   false; false; true].
Proof. repeat split; vm_compute; reflexivity. Qed.

(** ** What is drawn for the leaves of a tree *)

Lemma flat_map_nil {X Y : Type} (l : list X) :
  flat_map (fun _ : X => @nil Y) l = [].
Proof. induction l as [| a l IH]; [reflexivity | exact IH]. Qed.

Lemma flat_map_ext_in {X Y : Type} (f g : X -> list Y) (l : list X) :
  (forall x, In x l -> f x = g x) -> flat_map f l = flat_map g l.
Proof.
  induction l as [| a l IH]; intros E; [reflexivity |].
  cbn [flat_map]. rewrite (E a (or_introl eq_refl)), IH; [reflexivity |].
  intros x Hx. apply E. right. exact Hx.
Qed.

(** Going through the indices of a list and looking each one up is going
    through the list. *)
Lemma flat_map_indices {X Y : Type} (f : X -> list Y) (d : X) (l : list X) :
  flat_map (fun i => f (nth (Z.to_nat i) l d))
           (range (Z.of_nat (List.length l)))
  = flat_map f l.
Proof.
  induction l as [| a l IH] using rev_ind; [reflexivity |].
  rewrite last_length, range_succ, !flat_map_app. f_equal.
  - rewrite <- IH. apply flat_map_ext_in. intros i Hi.
    apply In_range in Hi. rewrite app_nth1 by lia. reflexivity.
  - cbn [flat_map]. rewrite Nat2Z.id, app_nth2 by lia.
    rewrite Nat.sub_diag. reflexivity.
Qed.

(** The [i]-th block of a concatenation of blocks of equal length. *)
Lemma flat_map_block {X Y : Type} (f : X -> list Y) (k : nat) (l : list X) :
  (forall x, List.length (f x) = k) ->
  forall i x, nth_error l i = Some x ->
              firstn k (skipn (k * i) (flat_map f l)) = f x.
Proof.
  intros Hk. induction l as [| a l IH]; intros i x Hi.
  - destruct i; discriminate.
  - cbn [flat_map]. destruct i as [| i]; simpl in Hi.
    + injection Hi as ->. rewrite Nat.mul_0_r. cbn [skipn].
      rewrite <- (Hk x) at 1. rewrite firstn_app, firstn_all, Nat.sub_diag.
      cbn [firstn]. apply app_nil_r.
    + rewrite skipn_app, skipn_all2 by (rewrite Hk; lia).
      rewrite Hk. replace (k * S i - k)%nat with (k * i)%nat by lia.
      apply (IH i x Hi).
Qed.

Section CubeFacts.
Context {A : Type} `{PyNum A}.

Lemma drawn_faces (l : list (@face A)) :
  flat_map (fun d => [(face_X d, face_Y d, face_Z d)]) l = l.
Proof.
  induction l as [| [[X Y] Z] l IH]; [reflexivity |].
  cbn [flat_map]. rewrite IH. reflexivity.
Qed.

Lemma getitem_bounds_0 (p : A * A * A) :
  getitem (bounds_list p) 0 = Ok (fst (fst p)).
Proof. destruct p as [[x y] z]. reflexivity. Qed.

Lemma plot_cube_bounds (lo hi : A * A * A) :
  plot_cube (bounds_list lo) (edge_length lo hi) = Ok (cube_faces lo hi).
Proof.
  unfold cube_faces. destruct lo as [[x y] z].
  cbn [bounds_list]. rewrite plot_cube_point3. reflexivity.
Qed.

(** The faces of a cell: the cube at its lower corner whose edge is the
    x-extent of the cell. *)
Lemma cube_faces_eq (x y z ux uy uz : A) :
  plot_cube (point3 x y z) (py_sub ux x) = Ok (cube_faces (x, y, z) (ux, uy, uz)).
Proof. apply (plot_cube_bounds (x, y, z) (ux, uy, uz)). Qed.

Lemma length_cube_faces (lo hi : A * A * A) :
  List.length (cube_faces lo hi) = 6%nat.
Proof.
  unfold cube_faces. destruct lo as [[x y] z].
  cbn [bounds_list]. rewrite plot_cube_point3. reflexivity.
Qed.

End CubeFacts.

Section FixedAnswers.
Context {A : Type} `{PyNum A} {tree node : Type}.
Variable methods : TreeMethods A tree node.
Variable N : Z.
Variable leaf : Z -> node.
Variables lo hi : node -> A * A * A.
Hypothesis FA : answers_as methods N leaf lo hi.

(** Fixed answers are answers as the interface promises. *)
Lemma answers_well_behaved : well_behaved methods N.
Proof.
  destruct FA as (HN & Hn & Hfetch & Hlow & Hup).
  split; [exact HN |]. split; [exact Hn |]. split; [| split].
  - intros i t Hi. exists (leaf i). apply Hfetch, Hi.
  - intros nd t. destruct (lo nd) as [[x y] z] eqn:E.
    exists x, y, z. rewrite Hlow, E. reflexivity.
  - intros nd t. destruct (hi nd) as [[x y] z] eqn:E.
    exists x, y, z. rewrite Hup, E. reflexivity.
Qed.

Lemma drawn_nEndNodes :
  yields view_drawn (nEndNodes methods) [] (eq N).
Proof.
  apply (yields_tree_call view_drawn Call_nEndNodes (do_nEndNodes methods)).
  intros t. exists N. split; [apply FA | reflexivity].
Qed.

Lemma drawn_fetchEndNode (i : Z) :
  In i (range N) ->
  yields view_drawn (fetchEndNode methods i) [] (eq (leaf i)).
Proof.
  intros Hi. apply In_range in Hi.
  apply (yields_tree_call view_drawn (Call_fetchEndNode i)
           (do_fetchEndNode methods i)).
  intros t. exists (leaf i). split; [| reflexivity].
  destruct FA as (_ & _ & Hfetch & _). apply Hfetch, Hi.
Qed.

Lemma drawn_lowerBounds (nd : node) :
  yields view_drawn (lowerBounds methods nd) [] (eq (bounds_list (lo nd))).
Proof.
  apply (yields_tree_call view_drawn (Call_lowerBounds nd)
           (do_lowerBounds methods nd)).
  intros t. exists (bounds_list (lo nd)). split; [| reflexivity].
  destruct FA as (_ & _ & _ & Hlow & _). apply Hlow.
Qed.

Lemma drawn_upperBounds (nd : node) :
  yields view_drawn (upperBounds methods nd) [] (eq (bounds_list (hi nd))).
Proof.
  apply (yields_tree_call view_drawn (Call_upperBounds nd)
           (do_upperBounds methods nd)).
  intros t. exists (bounds_list (hi nd)). split; [| reflexivity].
  destruct FA as (_ & _ & _ & _ & Hup). apply Hup.
Qed.

(** The corners gathered by the first comprehension. *)
Lemma drawn_corners :
  yields view_drawn
    (list_comp (fun i => bind (fetchEndNode methods i)
                              (fun nd => lowerBounds methods nd))
               (range N))
    (flat_map (fun _ => []) (range N))
    (fun corners =>
       Forall2 (fun i c => c = bounds_list (lo (leaf i))) (range N) corners).
Proof.
  apply (yields_list_comp view_drawn). intros i Hi.
  apply (yields_bind view_drawn _ _ [] [] _ _ (drawn_fetchEndNode i Hi)).
  intros nd <-.
  apply (yields_weaken view_drawn _ _ _ _ (drawn_lowerBounds (leaf i))).
  intros c <-. reflexivity.
Qed.

(** The lengths gathered by the second comprehension. *)
Lemma drawn_lengths :
  yields view_drawn
    (list_comp
       (fun i =>
          bind (fetchEndNode methods i) (fun nu =>
          bind (upperBounds methods nu) (fun ub =>
          bind (lift (getitem ub 0)) (fun u0 =>
          bind (fetchEndNode methods i) (fun nl =>
          bind (lowerBounds methods nl) (fun lb =>
          bind (lift (getitem lb 0)) (fun l0 =>
          ret (py_sub u0 l0))))))))
       (range N))
    (flat_map (fun _ => []) (range N))
    (fun lengths =>
       Forall2 (fun i L => L = edge_length (lo (leaf i)) (hi (leaf i)))
               (range N) lengths).
Proof.
  apply (yields_list_comp view_drawn). intros i Hi.
  apply (yields_bind view_drawn _ _ [] [] _ _ (drawn_fetchEndNode i Hi)).
  intros nu <-.
  apply (yields_bind view_drawn _ _ [] [] _ _ (drawn_upperBounds (leaf i))).
  intros ub <-.
  apply (yields_bind view_drawn _ _ [] [] (eq (fst (fst (hi (leaf i))))));
    [apply (yields_lift view_drawn _ _ _ (getitem_bounds_0 _)); reflexivity
    | intros u0 <-].
  apply (yields_bind view_drawn _ _ [] [] _ _ (drawn_fetchEndNode i Hi)).
  intros nl <-.
  apply (yields_bind view_drawn _ _ [] [] _ _ (drawn_lowerBounds (leaf i))).
  intros lb <-.
  apply (yields_bind view_drawn _ _ [] [] (eq (fst (fst (lo (leaf i))))));
    [apply (yields_lift view_drawn _ _ _ (getitem_bounds_0 _)); reflexivity
    | intros l0 <-].
  apply (yields_ret view_drawn). reflexivity.
Qed.

(** One turn of the drawing loop submits the six faces of the leaf at that
    index. *)
Lemma drawn_cube (corners : list (list A)) (lengths : list A) (i : Z) :
  Forall2 (fun i c => c = bounds_list (lo (leaf i))) (range N) corners ->
  Forall2 (fun i L => L = edge_length (lo (leaf i)) (hi (leaf i)))
          (range N) lengths ->
  In i (range N) ->
  yields (tree := tree) (node := node) view_drawn
    (bind (lift (getitem corners i)) (fun corner =>
     bind (lift (getitem lengths i)) (fun length =>
     bind (lift (plot_cube corner length)) (fun data =>
     for_each data
       (fun d => plot_surface (face_X d) (face_Y d) (face_Z d)
                              "purple" alpha_literal)))))
    (cube_faces (lo (leaf i)) (hi (leaf i)))
    (fun _ => True).
Proof.
  intros Hc Hl Hi.
  destruct (getitem_comprehension _ _ i corners Hc Hi) as (c & Ec & ->).
  destruct (getitem_comprehension _ _ i lengths Hl Hi) as (L & EL & ->).
  apply (yields_bind view_drawn _ _ [] _ (eq (bounds_list (lo (leaf i)))));
    [apply (yields_lift view_drawn _ _ _ Ec); reflexivity | intros ? <-].
  apply (yields_bind view_drawn _ _ [] _
           (eq (edge_length (lo (leaf i)) (hi (leaf i)))));
    [apply (yields_lift view_drawn _ _ _ EL); reflexivity | intros ? <-].
  apply (yields_bind view_drawn _ _ [] _
           (eq (cube_faces (lo (leaf i)) (hi (leaf i)))));
    [apply (yields_lift view_drawn _ _ _ (plot_cube_bounds _ _)); reflexivity
    | intros ? <-].
  apply (yields_eq view_drawn _
           (flat_map (fun d => [(face_X d, face_Y d, face_Z d)])
                     (cube_faces (lo (leaf i)) (hi (leaf i)))));
    [| apply drawn_faces].
  apply (yields_for_each view_drawn). intros d _.
  apply (yields_plot_call view_drawn
           (Call_plot_surface (face_X d) (face_Y d) (face_Z d)
                              "purple" alpha_literal)).
Qed.

(** All the faces [grid_plotter] submits for the tree, in order. *)
Lemma grid_plotter_drawn :
  yields view_drawn (grid_plotter methods)
         (flat_map (fun i => cube_faces (lo (leaf i)) (hi (leaf i))) (range N))
         (fun _ => True).
Proof.
  apply (yields_eq view_drawn _
           ([] ++ [] ++ [] ++ [] ++ [] ++
            flat_map (fun _ => []) (range N) ++ [] ++
            flat_map (fun _ => []) (range N) ++ [] ++
            flat_map (fun i => cube_faces (lo (leaf i)) (hi (leaf i)))
                     (range N))).
  2: { rewrite !flat_map_nil. reflexivity. }
  unfold grid_plotter.
  apply (yields_bind view_drawn _ _ [] _ (fun _ => True));
    [exact (yields_plot_call view_drawn Call_figure) | intros _ _].
  apply (yields_bind view_drawn _ _ [] _ (fun _ => True));
    [exact (yields_plot_call view_drawn (Call_add_subplot 111 "3d"))
    | intros _ _].
  apply (yields_bind view_drawn _ _ [] _ (fun _ => True));
    [exact (yields_plot_call view_drawn (Call_grid false)) | intros _ _].
  apply (yields_bind view_drawn _ _ [] _ (fun _ => True));
    [exact (yields_plot_call view_drawn (Call_axis "off")) | intros _ _].
  apply (yields_bind view_drawn _ _ [] _ _ _ drawn_nEndNodes). intros ? <-.
  apply (yields_bind view_drawn _ _ _ _ _ _ drawn_corners). intros corners Hc.
  apply (yields_bind view_drawn _ _ [] _ _ _ drawn_nEndNodes). intros ? <-.
  apply (yields_bind view_drawn _ _ _ _ _ _ drawn_lengths). intros lengths Hl.
  apply (yields_bind view_drawn _ _ [] _ _ _ drawn_nEndNodes). intros ? <-.
  apply (yields_for_each view_drawn). intros i Hi.
  apply (drawn_cube corners lengths i Hc Hl Hi).
Qed.

(** C4. For every tree and every leaf index [i] below [nEndNodes()], the
    six faces [grid_plotter] submits for that leaf (the [i]-th block of six
    draws) are those of [plot_cube] at the corner [lowerBounds()] with the
    edge length [upperBounds()[0] - lowerBounds()[0]]: the x-extent alone
    serves for the three axes, whatever the y and z extents. *)
Theorem grid_plotter_draws_leaf_cubes (t : tree) :
  let drawn := flat_map view_drawn (trace (grid_plotter methods t)) in
  res (grid_plotter methods t) = Ok tt /\
  drawn = flat_map (fun i => cube_faces (lo (leaf i)) (hi (leaf i))) (range N) /\
  (forall i, 0 <= i < N ->
     firstn 6 (skipn (6 * Z.to_nat i) drawn)
     = cube_faces (lo (leaf i)) (hi (leaf i))) /\
  (forall i x y z ux uy uz,
     lo (leaf i) = (x, y, z) -> hi (leaf i) = (ux, uy, uz) ->
     getitem (bounds_list (hi (leaf i))) 0 = Ok ux /\
     getitem (bounds_list (lo (leaf i))) 0 = Ok x /\
     plot_cube (bounds_list (lo (leaf i))) (py_sub ux x)
     = Ok (cube_faces (lo (leaf i)) (hi (leaf i)))).
Proof.
  intros drawn. subst drawn.
  destruct (grid_plotter_drawn t) as (u & E & _ & T). destruct u.
  split; [exact E |]. split; [exact T |]. split.
  - intros i Hi. rewrite T.
    rewrite <- (Z2Nat.id i) at 2 3 by lia.
    apply (flat_map_block
             (fun i => cube_faces (lo (leaf i)) (hi (leaf i))) 6 (range N)
             (fun i => length_cube_faces _ _)).
    apply nth_error_range. lia.
  - intros i x y z ux uy uz El Eu. rewrite !getitem_bounds_0.
    rewrite <- (plot_cube_bounds (lo (leaf i)) (hi (leaf i))).
    unfold edge_length. rewrite El, Eu. repeat split.
Qed.

End FixedAnswers.

(** ** The in-memory tree answers as its leaves say *)

Lemma static_answers {A : Type} (leaves : list (Leaf A)) (d : Leaf A) :
  answers_as (static_methods leaves) (Z.of_nat (List.length leaves))
             (fun i => nth (Z.to_nat i) leaves d) leaf_lower leaf_upper.
Proof.
  split; [lia |]. split; [reflexivity |]. split; [| split; reflexivity].
  intros i t Hi. cbn [static_methods do_fetchEndNode fst].
  destruct (Z.ltb_spec i 0) as [Hneg | _]; [lia |].
  rewrite (nth_error_nth' leaves d) by lia. reflexivity.
Qed.

(** For the in-memory tree: the faces of the leaves, leaf after leaf. *)
Lemma static_drawn {A : Type} `{PyNum A} (leaves : list (Leaf A)) :
  res (grid_plotter (static_methods leaves) tt) = Ok tt /\
  flat_map view_drawn (trace (grid_plotter (static_methods leaves) tt))
  = flat_map leaf_faces leaves.
Proof.
  destruct leaves as [| d leaves'] eqn:El.
  - split; reflexivity.
  - rewrite <- El.
    destruct (grid_plotter_drawn _ _ _ _ _ (static_answers leaves d) tt)
      as (u & E & _ & T).
    destruct u. split; [exact E |]. rewrite T.
    apply (flat_map_indices leaf_faces d leaves).
Qed.

(** The two-leaf integer tree, whose second leaf is not a cube. *)
Lemma grid_plotter_draws_leaf_cubes_witness :
  let drawn :=
    flat_map view_drawn (trace (grid_plotter (static_methods two_leaves) tt)) in
  let leaf := fun i => nth (Z.to_nat i) two_leaves
                           {| leaf_lower := (0, 0, 0); leaf_upper := (0, 0, 0) |} in
  res (grid_plotter (static_methods two_leaves) tt) = Ok tt /\
  drawn = flat_map (fun i => cube_faces (leaf_lower (leaf i))
                                        (leaf_upper (leaf i))) (range 2) /\
  (forall i, 0 <= i < 2 ->
     firstn 6 (skipn (6 * Z.to_nat i) drawn)
     = cube_faces (leaf_lower (leaf i)) (leaf_upper (leaf i))) /\
  (forall i x y z ux uy uz,
     leaf_lower (leaf i) = (x, y, z) -> leaf_upper (leaf i) = (ux, uy, uz) ->
     getitem (bounds_list (leaf_upper (leaf i))) 0 = Ok ux /\
     getitem (bounds_list (leaf_lower (leaf i))) 0 = Ok x /\
     plot_cube (bounds_list (leaf_lower (leaf i))) (py_sub ux x)
     = Ok (cube_faces (leaf_lower (leaf i)) (leaf_upper (leaf i)))).
Proof.
  apply (grid_plotter_draws_leaf_cubes (static_methods two_leaves) 2 _ _ _
           (static_answers two_leaves _) tt).
Defined.

(** ** Worked examples *)

(** One leaf, the unit cube in floating point: six faces, every grid with
    values among 0 and 1. *)
Example unit_cube_run :
  res (grid_plotter (static_methods unit_cube) tt) = Ok tt /\
  flat_map view_drawn (trace (grid_plotter (static_methods unit_cube) tt)) =
  [ ([[0; 1]; [0; 1]], [[0; 0]; [1; 1]], [[0; 0]; [0; 0]]);
    ([[0; 1]; [0; 1]], [[0; 0]; [1; 1]], [[1; 1]; [1; 1]]);
    ([[0; 0]; [0; 0]], [[0; 1]; [0; 1]], [[0; 0]; [1; 1]]);
    ([[1; 1]; [1; 1]], [[0; 1]; [0; 1]], [[0; 0]; [1; 1]]);
    ([[0; 1]; [0; 1]], [[0; 0]; [0; 0]], [[0; 0]; [1; 1]]);
    ([[0; 1]; [0; 1]], [[1; 1]; [1; 1]], [[0; 0]; [1; 1]]) ]%float.
Proof. split; vm_compute; reflexivity. Qed.

(** The second of the two integer leaves spans [1, 3] in x but [0, 1] in y
    and z; its faces nevertheless span [0, 2] in y and z. *)
Example two_leaves_second_cube :
  firstn 6 (skipn 6 (flat_map view_drawn
                       (trace (grid_plotter (static_methods two_leaves) tt)))) =
  [ ([[1; 3]; [1; 3]], [[0; 0]; [2; 2]], [[0; 0]; [0; 0]]);
    ([[1; 3]; [1; 3]], [[0; 0]; [2; 2]], [[2; 2]; [2; 2]]);
    ([[1; 1]; [1; 1]], [[0; 2]; [0; 2]], [[0; 0]; [2; 2]]);
    ([[3; 3]; [3; 3]], [[0; 2]; [0; 2]], [[0; 0]; [2; 2]]);
    ([[1; 3]; [1; 3]], [[0; 0]; [0; 0]], [[0; 0]; [2; 2]]);
    ([[1; 3]; [1; 3]], [[2; 2]; [2; 2]], [[0; 0]; [2; 2]]) ].
Proof. vm_compute. reflexivity. Qed.

(** A corner with fewer than three coordinates makes [plot_cube] raise. *)
Example plot_cube_short_corner :
  plot_cube [1; 2] 1 = Raise IndexError.
Proof. reflexivity. Qed.

(** A negative length on integers. *)
Example plot_cube_negative_length :
  plot_cube (point3 0 0 0) (-1) =
  Ok [ ([[0; -1]; [0; -1]], [[0; 0]; [-1; -1]], [[0; 0]; [0; 0]]);
       ([[0; -1]; [0; -1]], [[0; 0]; [-1; -1]], [[-1; -1]; [-1; -1]]);
       ([[0; 0]; [0; 0]], [[0; -1]; [0; -1]], [[0; 0]; [-1; -1]]);
       ([[-1; -1]; [-1; -1]], [[0; -1]; [0; -1]], [[0; 0]; [-1; -1]]);
       ([[0; -1]; [0; -1]], [[0; 0]; [0; 0]], [[0; 0]; [-1; -1]]);
       ([[0; -1]; [0; -1]], [[-1; -1]; [-1; -1]], [[0; 0]; [-1; -1]]) ].
Proof. reflexivity. Qed.

(** * Further properties *)

(** ** The cube and its faces *)

Section CubeGeometry.
Context {A : Type} `{PyNum A}.

Lemma getitem_raise {X : Type} (l : list X) (i : Z) (e : exn) :
  getitem l i = Raise e -> e = IndexError.
Proof.
  unfold getitem.
  destruct ((if i <? 0 then i + Z.of_nat (List.length l) else i) <? 0);
    [intros E; injection E as <-; reflexivity |].
  destruct (nth_error l _); [discriminate |].
  intros E. injection E as <-. reflexivity.
Qed.

Lemma plot_cube_cons3 (x y z : A) (rest : list A) (L : A) :
  plot_cube (x :: y :: z :: rest) L = plot_cube (point3 x y z) L.
Proof. reflexivity. Qed.

(** [plot_cube] reads the first three coordinates of its corner and nothing
    else: with fewer than three it raises [IndexError]; with three or more
    it returns what it returns on the first three, which is six faces of
    2x2 grids. *)
Theorem plot_cube_corner_length (corner : list A) (L : A) :
  ((List.length corner < 3)%nat -> plot_cube corner L = Raise IndexError) /\
  ((3 <= List.length corner)%nat ->
   plot_cube corner L = plot_cube (firstn 3 corner) L /\
   exists faces : list face,
     plot_cube corner L = Ok faces /\
     List.length faces = 6%nat /\ Forall face_2x2 faces) /\
  (forall e, plot_cube corner L = Raise e -> e = IndexError).
Proof.
  destruct corner as [| x [| y [| z rest]]]; cbn [List.length].
  - split; [reflexivity |]. split; [lia |].
    intros e E. injection E as <-. reflexivity.
  - split; [reflexivity |]. split; [lia |].
    intros e E. injection E as <-. reflexivity.
  - split; [reflexivity |]. split; [lia |].
    intros e E. injection E as <-. reflexivity.
  - split; [lia |]. split.
    + intros _. split; [reflexivity |].
      rewrite plot_cube_cons3. eexists. split; [apply plot_cube_point3 |].
      apply (plot_cube_faces_2x2 x y z L), plot_cube_point3.
    + rewrite plot_cube_cons3, plot_cube_point3. discriminate.
Qed.

(** The four sample points of each of the six faces are the four corners
    of one side of the cube: the sides [z], [z + L], [x], [x + L], [y],
    [y + L] in that order. *)
Theorem cube_face_vertices (x y z L : A) :
  exists a b c d e f : face,
    plot_cube (point3 x y z) L = Ok [a; b; c; d; e; f] /\
    vertices a = [ (x, y, z); (py_add x L, y, z);
                   (x, py_add y L, z); (py_add x L, py_add y L, z) ] /\
    vertices b = [ (x, y, py_add z L); (py_add x L, y, py_add z L);
                   (x, py_add y L, py_add z L);
                   (py_add x L, py_add y L, py_add z L) ] /\
    vertices c = [ (x, y, z); (x, py_add y L, z);
                   (x, y, py_add z L); (x, py_add y L, py_add z L) ] /\
    vertices d = [ (py_add x L, y, z); (py_add x L, py_add y L, z);
                   (py_add x L, y, py_add z L);
                   (py_add x L, py_add y L, py_add z L) ] /\
    vertices e = [ (x, y, z); (py_add x L, y, z);
                   (x, y, py_add z L); (py_add x L, y, py_add z L) ] /\
    vertices f = [ (x, py_add y L, z); (py_add x L, py_add y L, z);
                   (x, py_add y L, py_add z L);
                   (py_add x L, py_add y L, py_add z L) ] /\
    Forall (fun q => incl (vertices q) (cube_corners x y z L))
           [a; b; c; d; e; f].
Proof.
  do 6 eexists. split; [apply plot_cube_point3 |].
  rewrite plot_surface_xy_eq, plot_surface_yz_eq, plot_surface_xz_eq.
  cbn [fst snd]. repeat (split; [reflexivity |]).
  repeat first [apply Forall_cons | apply Forall_nil];
    intros p Hp; cbn in Hp; cbn;
    repeat (destruct Hp as [<- | Hp]; [tauto |]); contradiction.
Qed.



Section ClosedSurface.
Variable point_eq_dec : forall p q : A * A * A, {p = q} + {p <> q}.
Variables x y z L : A.
Hypothesis Hx : py_add x L <> x.
Hypothesis Hy : py_add y L <> y.
Hypothesis Hz : py_add z L <> z.

Ltac count_step :=
  first [ rewrite count_occ_cons_eq by reflexivity
        | rewrite count_occ_cons_neq by congruence ].

(** When adding the length changes each of the three coordinates of the
    corner, the six faces close up: each of the eight corners of the cube
    is a sample point of exactly three faces, once in each. *)
Theorem cube_corner_in_three_faces (p : A * A * A) :
  In p (cube_corners x y z L) ->
  exists faces : list face,
    plot_cube (point3 x y z) L = Ok faces /\
    count_occ point_eq_dec (flat_map vertices faces) p = 3%nat /\
    Forall (fun q => (count_occ point_eq_dec (vertices q) p <= 1)%nat) faces.
Proof.
  intros Hp. eexists. split; [apply plot_cube_point3 |].
  rewrite plot_surface_xy_eq, plot_surface_yz_eq, plot_surface_xz_eq.
  cbn [fst snd].
  cbn [flat_map vertices zip3 combine map List.concat app
       face_X face_Y face_Z fst snd].
  unfold cube_corners in Hp. cbn [In] in Hp.
  repeat (destruct Hp as [<- | Hp];
          [ split;
            [ repeat count_step; reflexivity
            | repeat first [apply Forall_cons | apply Forall_nil];
              cbn [vertices zip3 combine map List.concat app
                   face_X face_Y face_Z fst snd];
              repeat count_step; cbn [count_occ]; lia ]
          | ]).
  contradiction.
Qed.

End ClosedSurface.

(** Stacking: the high face of a pair is the low face of the same builder
    one edge further along its axis. *)
Theorem high_face_is_next_low_face (x y z L : A) :
  snd (plot_surface_xy x y z L) = fst (plot_surface_xy x y (py_add z L) L) /\
  snd (plot_surface_yz x y z L) = fst (plot_surface_yz (py_add x L) y z L) /\
  snd (plot_surface_xz x y z L) = fst (plot_surface_xz x (py_add y L) z L).
Proof. repeat split. Qed.

(** The three builders are one builder: [plot_surface_yz] and
    [plot_surface_xz] give the faces of [plot_surface_xy] for a corner
    with its coordinates rotated or swapped, with the grids renamed
    accordingly. *)
Theorem builders_are_axis_renamings (x y z L : A) :
  plot_surface_yz x y z L =
  (axes_zxy (fst (plot_surface_xy y z x L)),
   axes_zxy (snd (plot_surface_xy y z x L))) /\
  plot_surface_xz x y z L =
  (axes_xzy (fst (plot_surface_xy x z y L)),
   axes_xzy (snd (plot_surface_xy x z y L))).
Proof. split; reflexivity. Qed.

(** Moving the corner moves the faces, when the order of two additions
    does not matter. *)
Theorem plot_cube_translation (x y z L dx dy dz : A) :
  (forall a b c, py_add (py_add a b) c = py_add (py_add a c) b) ->
  exists faces : list face,
    plot_cube (point3 x y z) L = Ok faces /\
    plot_cube (point3 (py_add x dx) (py_add y dy) (py_add z dz)) L
    = Ok (map (shift_face dx dy dz) faces).
Proof.
  intros Hswap. eexists. split; [apply plot_cube_point3 |].
  rewrite plot_cube_point3.
  rewrite !plot_surface_xy_eq, !plot_surface_yz_eq, !plot_surface_xz_eq.
  cbn [fst snd map shift_face shift_grid face_X face_Y face_Z].
  rewrite (Hswap x dx L), (Hswap y dy L), (Hswap z dz L). reflexivity.
Qed.

End CubeGeometry.

(** The unit cube in floating point: the corner [(1, 0, 1)] lies on three
    faces. *)
Lemma cube_corner_in_three_faces_witness :
  exists faces : list face,
    plot_cube (point3 0 0 0)%float 1%float = Ok faces /\
    count_occ point_eq_dec_float (flat_map vertices faces) (1, 0, 1)%float
    = 3%nat /\
    Forall (fun q => (count_occ point_eq_dec_float (vertices q)
                                (1, 0, 1)%float <= 1)%nat)
           faces.
Proof.
  assert (Hmove : py_add 0%float 1%float <> 0%float).
  { intros E. apply (f_equal (fun a => PrimFloat.eqb a 0)) in E.
    vm_compute in E. discriminate E. }
  apply (cube_corner_in_three_faces (A := float) point_eq_dec_float
           0%float 0%float 0%float 1%float Hmove Hmove Hmove (1, 0, 1)%float).
  do 5 right. left. vm_compute. reflexivity.
Defined.

(** On integers, moving the corner [(1, 2, 3)] by [(10, 20, 30)]. *)
Lemma plot_cube_translation_witness :
  exists faces : list face,
    plot_cube (point3 1 2 3) 4 = Ok faces /\
    plot_cube (point3 (py_add 1 10) (py_add 2 20) (py_add 3 30)) 4
    = Ok (map (shift_face 10 20 30) faces).
Proof.
  apply (plot_cube_translation (A := Z) 1 2 3 4 10 20 30).
  intros a b c. simpl. lia.
Defined.

(** ** Exceptions crossing [grid_plotter] *)

Section Exceptions.
Context {A : Type} `{PyNum A} {tree node : Type}.

(** *** A raising call ends the run *)

Lemma propagates_ret {X : Type} (x : X) :
  propagates (ret x : M A tree node X).
Proof. intros t ev e []. Qed.

Lemma propagates_lift {X : Type} (r : result X) :
  propagates (lift r : M A tree node X).
Proof. intros t ev e []. Qed.

Lemma propagates_plot_call (c : call A node) :
  propagates (plot_call c : M A tree node unit).
Proof.
  intros t ev e [<- | []] Hr. discriminate Hr.
Qed.

Lemma propagates_tree_call {X : Type} (c : call A node)
    (m : tree -> result X * tree) :
  propagates (tree_call c m).
Proof.
  intros t ev e. rewrite tree_call_eq. cbn [res trace].
  intros [<- | []] Hr. cbn [ev_raised] in Hr.
  destruct (fst (m t)) as [x | e']; [discriminate Hr |].
  injection Hr as ->. split; [reflexivity | exists []; reflexivity].
Qed.

Lemma propagates_bind {X Y : Type} (m : M A tree node X)
    (f : X -> M A tree node Y) :
  propagates m -> (forall x, propagates (f x)) -> propagates (bind m f).
Proof.
  intros Hm Hf t ev e.
  destruct (res (m t)) as [x | e0] eqn:E.
  - rewrite (bind_ok m f t x E). cbn [res trace].
    intros Hin Hr. apply in_app_or in Hin. destruct Hin as [Hin | Hin].
    + destruct (Hm t ev e Hin Hr) as (Eres & _). congruence.
    + destruct (Hf x (final (m t)) ev e Hin Hr) as (Eres & pre & Epre).
      split; [exact Eres |]. exists (trace (m t) ++ pre).
      rewrite Epre. apply app_assoc.
  - rewrite (bind_raise m f t e0 E). cbn [res trace].
    intros Hin Hr. destruct (Hm t ev e Hin Hr) as (Eres & Hpre).
    split; [congruence | exact Hpre].
Qed.

Lemma propagates_list_comp {X Y : Type} (f : X -> M A tree node Y)
    (l : list X) :
  (forall x, propagates (f x)) -> propagates (list_comp f l).
Proof.
  intros Hf. induction l as [| a l IH]; cbn [list_comp].
  - apply propagates_ret.
  - apply propagates_bind; [apply Hf | intros y].
    apply propagates_bind; [exact IH | intros ys; apply propagates_ret].
Qed.

Lemma propagates_for_each {X : Type} (body : X -> M A tree node unit)
    (l : list X) :
  (forall x, propagates (body x)) -> propagates (for_each l body).
Proof.
  intros Hb. induction l as [| a l IH]; cbn [for_each].
  - apply propagates_ret.
  - apply propagates_bind; [apply Hb | intros _; exact IH].
Qed.

Lemma grid_plotter_propagates (methods : TreeMethods A tree node) :
  propagates (grid_plotter methods).
Proof.
  unfold grid_plotter.
  repeat first
    [ apply propagates_bind; [| intro]
    | apply propagates_list_comp; intro
    | apply propagates_for_each; intro
    | apply propagates_plot_call
    | apply propagates_tree_call
    | apply propagates_lift
    | apply propagates_ret ].
Qed.

(** Whatever a method of the tree raises, [grid_plotter] raises it
    unchanged, and makes no further call on the tree or on the plot. *)
Theorem tree_exception_propagates (methods : TreeMethods A tree node)
    (t : tree) (ev : event A node) (e : exn) :
  In ev (trace (grid_plotter methods t)) ->
  ev_raised ev = Some e ->
  res (grid_plotter methods t) = Raise e /\
  exists pre, trace (grid_plotter methods t) = pre ++ [ev].
Proof. apply grid_plotter_propagates. Qed.

(** *** Where an exception can come from *)

Lemma raises_known_ret {X : Type} (x : X) :
  raises_known (ret x : M A tree node X).
Proof. intros t e E. discriminate E. Qed.

Lemma raises_known_lift {X : Type} (r : result X) :
  (forall e, r = Raise e -> e = IndexError) ->
  raises_known (lift r : M A tree node X).
Proof. intros Hr t e E. left. apply Hr, E. Qed.

Lemma raises_known_plot_call (c : call A node) :
  raises_known (plot_call c : M A tree node unit).
Proof. intros t e E. discriminate E. Qed.

Lemma raises_known_tree_call {X : Type} (c : call A node)
    (m : tree -> result X * tree) :
  is_tree_call {| ev_call := c; ev_raised := None |} = true ->
  raises_known (tree_call c m).
Proof.
  intros Hc t e. rewrite tree_call_eq. cbn [res trace]. intros E.
  right. eexists. split; [left; reflexivity |].
  rewrite E. split; [exact Hc | reflexivity].
Qed.

Lemma raises_known_bind {X Y : Type} (m : M A tree node X)
    (f : X -> M A tree node Y) :
  raises_known m -> (forall x, raises_known (f x)) ->
  raises_known (bind m f).
Proof.
  intros Hm Hf t e.
  destruct (res (m t)) as [x | e0] eqn:E.
  - rewrite (bind_ok m f t x E). cbn [res trace]. intros Er.
    destruct (Hf x (final (m t)) e Er) as [-> | (ev & Hin & Ht & Hr)];
      [left; reflexivity | right].
    exists ev. split; [apply in_or_app; right; exact Hin | split; assumption].
  - rewrite (bind_raise m f t e0 E). cbn [res trace]. intros Er.
    injection Er as <-. apply (Hm t e0 E).
Qed.

Lemma raises_known_list_comp {X Y : Type} (f : X -> M A tree node Y)
    (l : list X) :
  (forall x, raises_known (f x)) -> raises_known (list_comp f l).
Proof.
  intros Hf. induction l as [| a l IH]; cbn [list_comp].
  - apply raises_known_ret.
  - apply raises_known_bind; [apply Hf | intros y].
    apply raises_known_bind; [exact IH | intros ys; apply raises_known_ret].
Qed.

Lemma raises_known_for_each {X : Type} (body : X -> M A tree node unit)
    (l : list X) :
  (forall x, raises_known (body x)) -> raises_known (for_each l body).
Proof.
  intros Hb. induction l as [| a l IH]; cbn [for_each].
  - apply raises_known_ret.
  - apply raises_known_bind; [apply Hb | intros _; exact IH].
Qed.

Lemma plot_cube_raise (corner : list A) (L : A) (e : exn) :
  plot_cube corner L = Raise e -> e = IndexError.
Proof.
  destruct corner as [| x [| y [| z rest]]];
    try (intros E; injection E as <-; reflexivity).
  rewrite plot_cube_cons3, plot_cube_point3. discriminate.
Qed.

Lemma grid_plotter_raises_known (methods : TreeMethods A tree node) :
  raises_known (grid_plotter methods).
Proof.
  unfold grid_plotter.
  repeat first
    [ apply raises_known_bind; [| intro]
    | apply raises_known_list_comp; intro
    | apply raises_known_for_each; intro
    | apply raises_known_plot_call
    | apply raises_known_tree_call; reflexivity
    | apply raises_known_lift; apply getitem_raise
    | apply raises_known_lift; apply plot_cube_raise
    | apply raises_known_ret ].
Qed.

(** [grid_plotter] raises nothing of its own except [IndexError] (from a
    subscript): any other exception was raised by a method of the tree. *)
Theorem grid_plotter_exception_origin (methods : TreeMethods A tree node)
    (t : tree) (e : exn) :
  res (grid_plotter methods t) = Raise e ->
  e = IndexError \/
  exists ev, In ev (trace (grid_plotter methods t)) /\
             is_tree_call ev = true /\ ev_raised ev = Some e.
Proof. apply grid_plotter_raises_known. Qed.

End Exceptions.

(** The tree whose [upperBounds] raises. *)
Lemma tree_exception_propagates_witness :
  res (grid_plotter broken_upper_methods tt) = Raise (TreeError "upperBounds") /\
  exists pre,
    trace (grid_plotter broken_upper_methods tt) =
    pre ++ [ {| ev_call := Call_upperBounds
                             {| leaf_lower := (0, 0, 0);
                                leaf_upper := (1, 1, 1) |};
                ev_raised := Some (TreeError "upperBounds") |} ].
Proof.
  apply (tree_exception_propagates broken_upper_methods tt).
  - vm_compute. do 11 right. left. reflexivity.
  - reflexivity.
Defined.

Lemma grid_plotter_exception_origin_witness :
  TreeError "upperBounds" = IndexError \/
  exists ev, In ev (trace (grid_plotter broken_upper_methods tt)) /\
             is_tree_call ev = true /\
             ev_raised ev = Some (TreeError "upperBounds").
Proof.
  apply (grid_plotter_exception_origin broken_upper_methods tt).
  vm_compute. reflexivity.
Defined.

(** ** Faces are drawn six at a time *)

Section WholeCubes.
Context {A : Type} `{PyNum A} {tree node : Type}.

Ltac prove_quiet :=
  repeat first
    [ apply quiet_bind; [| intro]
    | apply quiet_list_comp; intro
    | apply quiet_plot_call; reflexivity
    | apply quiet_tree_call; reflexivity
    | apply quiet_lift
    | apply quiet_ret ].

Lemma count_no_draw (tr : list (event A node)) :
  Forall (fun e => is_draw e = false) tr -> count is_draw tr = 0%nat.
Proof.
  unfold count. induction 1 as [| e tr He _ IH]; [reflexivity |].
  cbn [filter]. rewrite He. exact IH.
Qed.

Lemma bind_plot_call {Y : Type} (c : call A node)
    (f : unit -> M A tree node Y) (t : tree) :
  bind (plot_call c) f t =
  {| res := res (f tt t); final := final (f tt t);
     trace := {| ev_call := c; ev_raised := None |} :: trace (f tt t) |}.
Proof. reflexivity. Qed.

Lemma bind_lift_ok {X Y : Type} (x : X) (f : X -> M A tree node Y) (t : tree) :
  bind (lift (Ok x)) f t =
  {| res := res (f x t); final := final (f x t); trace := trace (f x t) |}.
Proof. reflexivity. Qed.

Lemma bind_lift_raise {X Y : Type} (e : exn) (f : X -> M A tree node Y)
    (t : tree) :
  bind (lift (Raise e)) f t = {| res := Raise e; final := t; trace := [] |}.
Proof. reflexivity. Qed.

Lemma plot_cube_ok_length (corner : list A) (L : A) (data : list face) :
  plot_cube corner L = Ok data -> List.length data = 6%nat.
Proof.
  destruct corner as [| x [| y [| z rest]]]; try discriminate.
  rewrite plot_cube_cons3, plot_cube_point3.
  intros E. injection E as <-. reflexivity.
Qed.

(** The inner loop: one [plot_surface] per face, and it returns. *)
Lemma plot_loop (data : list (@face A)) (t : tree) :
  res (for_each (node := node) data
         (fun d => plot_surface (face_X d) (face_Y d) (face_Z d)
                                "purple" alpha_literal) t) = Ok tt /\
  final (for_each (node := node) data
           (fun d => plot_surface (face_X d) (face_Y d) (face_Z d)
                                  "purple" alpha_literal) t) = t /\
  count is_draw
    (trace (for_each (node := node) data
              (fun d => plot_surface (face_X d) (face_Y d) (face_Z d)
                                     "purple" alpha_literal) t))
  = List.length data.
Proof.
  induction data as [| d data IH]; [repeat split |].
  cbn [for_each]. unfold plot_surface at 1 3 5. rewrite bind_plot_call.
  cbn [res final trace].
  destruct IH as (E & F & C).
  split; [exact E |]. split; [exact F |].
  change (?e :: ?l) with ([e] ++ l). rewrite count_app, C. reflexivity.
Qed.

Lemma whole_cubes_quiet {X : Type} (m : M A tree node X) :
  quiet m -> whole_cubes m.
Proof.
  intros Hm t. exists 0%nat. rewrite count_no_draw; [reflexivity | apply Hm].
Qed.

Lemma whole_cubes_bind {X Y : Type} (m : M A tree node X)
    (f : X -> M A tree node Y) :
  whole_cubes m -> (forall x, whole_cubes (f x)) -> whole_cubes (bind m f).
Proof.
  intros Hm Hf t. destruct (Hm t) as (k & Ek).
  destruct (res (m t)) as [x | e] eqn:E.
  - rewrite (bind_ok m f t x E). cbn [trace].
    destruct (Hf x (final (m t))) as (k' & Ek').
    exists (k + k')%nat. rewrite count_app, Ek, Ek'. lia.
  - rewrite (bind_raise m f t e E). exists k. exact Ek.
Qed.

Lemma whole_cubes_for_each {X : Type} (body : X -> M A tree node unit)
    (l : list X) :
  (forall x, whole_cubes (body x)) -> whole_cubes (for_each l body).
Proof.
  intros Hb. induction l as [| a l IH]; cbn [for_each].
  - intros t. exists 0%nat. reflexivity.
  - apply whole_cubes_bind; [apply Hb | intros _; exact IH].
Qed.

Lemma whole_cubes_plot_cube (corner : list A) (L : A) :
  whole_cubes (tree := tree) (node := node)
    (bind (lift (plot_cube corner L)) (fun data =>
     for_each data
       (fun d => plot_surface (face_X d) (face_Y d) (face_Z d)
                              "purple" alpha_literal))).
Proof.
  intros t. destruct (plot_cube corner L) as [data | e] eqn:E.
  - rewrite bind_lift_ok. cbn [trace].
    destruct (plot_loop data t) as (_ & _ & C).
    exists 1%nat. rewrite C. apply (plot_cube_ok_length corner L data E).
  - rewrite bind_lift_raise. exists 0%nat. reflexivity.
Qed.

(** Whatever the tree does, and whether [grid_plotter] returns or raises,
    the number of faces it has submitted is a multiple of six: cubes are
    drawn whole or not at all. *)
Theorem grid_plotter_draws_whole_cubes
    (methods : TreeMethods A tree node) (t : tree) :
  exists cubes : nat,
    count is_draw (trace (grid_plotter methods t)) = (6 * cubes)%nat.
Proof.
  revert t. change (whole_cubes (grid_plotter methods)).
  unfold grid_plotter.
  do 9 (apply whole_cubes_bind;
        [apply whole_cubes_quiet; prove_quiet | intro]).
  apply whole_cubes_for_each. intros i.
  apply whole_cubes_bind;
    [apply whole_cubes_quiet; prove_quiet | intros corner].
  apply whole_cubes_bind;
    [apply whole_cubes_quiet; prove_quiet | intros length].
  apply whole_cubes_plot_cube.
Qed.

(** Before it asks the tree anything, [grid_plotter] has created the
    figure and configured the axes; its first question to the tree is
    [nEndNodes].  This holds whatever the tree answers, so a figure without
    grid and axes is left behind even when the first call raises. *)
Theorem grid_plotter_sets_up_first
    (methods : TreeMethods A tree node) (t : tree) :
  exists (raised : option exn) (rest : list (event A node)),
    trace (grid_plotter methods t) =
    [ {| ev_call := Call_figure; ev_raised := None |};
      {| ev_call := Call_add_subplot 111 "3d"; ev_raised := None |};
      {| ev_call := Call_grid false; ev_raised := None |};
      {| ev_call := Call_axis "off"; ev_raised := None |};
      {| ev_call := Call_nEndNodes; ev_raised := raised |} ] ++ rest /\
    raised = raised_by (fst (do_nEndNodes methods t)) /\
    (raised <> None -> rest = []).
Proof.
  unfold grid_plotter.
  rewrite !bind_plot_call. cbn [res final trace].
  destruct (res (nEndNodes methods t)) as [n1 | e] eqn:E.
  - rewrite (bind_ok _ _ t n1 E). cbn [trace].
    unfold nEndNodes in *. rewrite tree_call_eq in *. cbn [res trace] in *.
    rewrite E. cbn [raised_by app]. do 2 eexists.
    split; [reflexivity |]. split; [reflexivity |]. intros Hn.
    contradiction Hn. reflexivity.
  - rewrite (bind_raise _ _ t e E). cbn [trace].
    unfold nEndNodes in *. rewrite tree_call_eq in *. cbn [res trace] in *.
    rewrite E. cbn [raised_by app]. exists (Some e), [].
    split; [reflexivity |]. split; reflexivity.
Qed.

End WholeCubes.

(** ** A tree that reports no leaves, or fewer *)

Lemma range_nonpos (n : Z) : n <= 0 -> range n = [].
Proof.
  intros Hn. unfold range. replace (Z.to_nat n) with 0%nat by lia.
  reflexivity.
Qed.

Section NonPositiveCount.
Context {A : Type} `{PyNum A} {tree node : Type}.
Variable methods : TreeMethods A tree node.
Hypothesis nonpos :
  forall t, exists n, fst (do_nEndNodes methods t) = Ok n /\ n <= 0.

Lemma yields_nEndNodes_nonpos :
  yields view_shape (nEndNodes methods) [S_nEndNodes] (fun n => n <= 0).
Proof. apply (yields_tree_call view_shape). exact nonpos. Qed.

Lemma grid_plotter_calls_nonpos :
  yields view_shape (grid_plotter methods)
    ([S_figure] ++ [S_add_subplot 111 "3d"] ++ [S_grid false] ++
     [S_axis "off"] ++ [S_nEndNodes] ++ [] ++ [S_nEndNodes] ++ [] ++
     [S_nEndNodes] ++ [])
    (fun _ => True).
Proof.
  unfold grid_plotter.
  do 4 (apply (yields_bind view_shape _ _ _ _ (fun _ => True));
        [apply (yields_plot_call view_shape) | intros _ _]).
  apply (yields_bind view_shape _ _ _ _ _ _ yields_nEndNodes_nonpos).
  intros n1 Hn1. rewrite (range_nonpos n1 Hn1). cbn [list_comp].
  apply (yields_bind view_shape _ _ _ _ (fun _ => True));
    [apply (yields_ret view_shape); exact I | intros corners _].
  apply (yields_bind view_shape _ _ _ _ _ _ yields_nEndNodes_nonpos).
  intros n2 Hn2. rewrite (range_nonpos n2 Hn2). cbn [list_comp].
  apply (yields_bind view_shape _ _ _ _ (fun _ => True));
    [apply (yields_ret view_shape); exact I | intros lengths _].
  apply (yields_bind view_shape _ _ _ _ _ _ yields_nEndNodes_nonpos).
  intros n3 Hn3. rewrite (range_nonpos n3 Hn3). cbn [for_each].
  apply (yields_ret view_shape). exact I.
Qed.

(** A negative answer of [nEndNodes] is taken as zero: when every answer is
    zero or less (they need not agree), [grid_plotter] returns normally,
    fetches no node and draws nothing. *)
Theorem grid_plotter_nonpositive_count (t : tree) :
  res (grid_plotter methods t) = Ok tt /\
  map shape_of (trace (grid_plotter methods t)) =
  [S_figure; S_add_subplot 111 "3d"; S_grid false; S_axis "off";
   S_nEndNodes; S_nEndNodes; S_nEndNodes].
Proof.
  destruct (grid_plotter_calls_nonpos t) as (u & E & _ & T).
  destruct u. rewrite flat_map_view_shape in T. split; assumption.
Qed.

End NonPositiveCount.

(** The tree that reports [-3] leaves. *)
Lemma grid_plotter_nonpositive_count_witness :
  res (grid_plotter negative_count_methods tt) = Ok tt /\
  map shape_of (trace (grid_plotter negative_count_methods tt)) =
  [S_figure; S_add_subplot 111 "3d"; S_grid false; S_axis "off";
   S_nEndNodes; S_nEndNodes; S_nEndNodes].
Proof.
  apply (grid_plotter_nonpositive_count negative_count_methods).
  intros t. exists (-3). split; [reflexivity | lia].
Defined.

(** ** What the picture depends on *)

Section SamePicture.
Context {A : Type} `{PyNum A}.
Context {tree1 node1 tree2 node2 : Type}.
Variable methods1 : TreeMethods A tree1 node1.
Variable methods2 : TreeMethods A tree2 node2.
Variable N : Z.
Variable leaf1 : Z -> node1.
Variable leaf2 : Z -> node2.
Variables lo1 hi1 : node1 -> A * A * A.
Variables lo2 hi2 : node2 -> A * A * A.

(** Two trees with as many leaves, the same lower corners and the same
    upper x-coordinates give the same picture: the upper y- and
    z-coordinates have no influence on what is drawn. *)
Theorem picture_ignores_upper_y_z (t1 : tree1) (t2 : tree2) :
  answers_as methods1 N leaf1 lo1 hi1 ->
  answers_as methods2 N leaf2 lo2 hi2 ->
  (forall i, 0 <= i < N ->
     lo1 (leaf1 i) = lo2 (leaf2 i) /\
     fst (fst (hi1 (leaf1 i))) = fst (fst (hi2 (leaf2 i)))) ->
  res (grid_plotter methods1 t1) = Ok tt /\
  res (grid_plotter methods2 t2) = Ok tt /\
  flat_map view_drawn (trace (grid_plotter methods1 t1)) =
  flat_map view_drawn (trace (grid_plotter methods2 t2)).
Proof.
  intros FA1 FA2 Hsame.
  destruct (grid_plotter_drawn _ _ _ _ _ FA1 t1) as (u1 & E1 & _ & T1).
  destruct (grid_plotter_drawn _ _ _ _ _ FA2 t2) as (u2 & E2 & _ & T2).
  destruct u1, u2. split; [exact E1 |]. split; [exact E2 |].
  rewrite T1, T2. apply flat_map_ext_in. intros i Hi.
  apply In_range in Hi. destruct (Hsame i Hi) as (Elo & Ehi).
  unfold cube_faces, edge_length. rewrite Elo, Ehi. reflexivity.
Qed.

End SamePicture.

(** The two integer leaves, and the same with other heights and depths. *)
Lemma picture_ignores_upper_y_z_witness :
  res (grid_plotter (static_methods two_leaves) tt) = Ok tt /\
  res (grid_plotter (static_methods two_leaves_tall) tt) = Ok tt /\
  flat_map view_drawn (trace (grid_plotter (static_methods two_leaves) tt)) =
  flat_map view_drawn (trace (grid_plotter (static_methods two_leaves_tall) tt)).
Proof.
  apply (picture_ignores_upper_y_z
           (static_methods two_leaves) (static_methods two_leaves_tall) 2
           _ _ _ _ _ _ tt tt
           (static_answers two_leaves
              {| leaf_lower := (0, 0, 0); leaf_upper := (0, 0, 0) |})
           (static_answers two_leaves_tall
              {| leaf_lower := (0, 0, 0); leaf_upper := (0, 0, 0) |})).
  intros i Hi.
  assert (Hcases : i = 0 \/ i = 1) by lia.
  destruct Hcases as [-> | ->]; split; reflexivity.
Defined.

(** ** No cube without bounds *)

Section BackedByReads.
Context {A : Type} `{PyNum A} {tree node : Type}.

#[warnings="-notation-for-abbreviation"]
Local Notation draw_turn corners lengths :=
  (fun i : Z =>
     bind (tree := tree) (node := node) (lift (getitem corners i))
       (fun corner =>
     bind (lift (getitem lengths i)) (fun length =>
     bind (lift (plot_cube corner length)) (fun data =>
     for_each data
       (fun d => plot_surface (face_X d) (face_Y d) (face_Z d)
                              "purple" alpha_literal))))).

Ltac prove_quiet :=
  repeat first
    [ apply quiet_bind; [| intro]
    | apply quiet_list_comp; intro
    | apply quiet_plot_call; reflexivity
    | apply quiet_tree_call; reflexivity
    | apply quiet_lift
    | apply quiet_ret ].

Lemma getitem_nat_lt {X : Type} (l : list X) (k : nat) (v : X) :
  getitem l (Z.of_nat k) = Ok v -> (k < List.length l)%nat.
Proof.
  unfold getitem.
  destruct (Z.ltb_spec (Z.of_nat k) 0) as [Hneg | _]; [lia |].
  destruct (Z.ltb_spec (Z.of_nat k) 0) as [Hneg | _]; [lia |].
  rewrite Nat2Z.id. destruct (nth_error l k) eqn:E; [| discriminate].
  intros _. apply nth_error_Some. congruence.
Qed.

(** One turn of the drawing loop either raises before drawing anything, or
    finds its corner and its length and draws six faces. *)
Lemma draw_turn_cases (corners : list (list A)) (lengths : list A)
    (k : nat) (t : tree) :
  match res (draw_turn corners lengths (Z.of_nat k) t) with
  | Ok _ =>
    (k < List.length corners)%nat /\ (k < List.length lengths)%nat /\
    count is_draw (trace (draw_turn corners lengths (Z.of_nat k) t)) = 6%nat
  | Raise _ =>
    count is_draw (trace (draw_turn corners lengths (Z.of_nat k) t)) = 0%nat
  end.
Proof.
  cbv beta.
  destruct (getitem corners (Z.of_nat k)) as [c | e] eqn:Ec;
    [| rewrite bind_lift_raise; reflexivity].
  rewrite bind_lift_ok.
  destruct (getitem lengths (Z.of_nat k)) as [L | e] eqn:EL;
    [| rewrite bind_lift_raise; reflexivity].
  rewrite bind_lift_ok.
  destruct (plot_cube c L) as [data | e] eqn:Ed;
    [| rewrite bind_lift_raise; reflexivity].
  rewrite bind_lift_ok. cbn [res trace].
  destruct (plot_loop (node := node) data t) as (E & _ & C).
  rewrite E, C.
  split; [apply (getitem_nat_lt _ _ _ Ec) |].
  split; [apply (getitem_nat_lt _ _ _ EL) |].
  apply (plot_cube_ok_length c L data Ed).
Qed.

(** The drawing loop stops at the first index that one of the two lists
    does not have. *)
Lemma draw_loop_bound (corners : list (list A)) (lengths : list A) :
  forall (n k : nat) (t : tree),
    (count is_draw
       (trace (for_each (map Z.of_nat (seq k n)) (draw_turn corners lengths) t))
     <= 6 * (Nat.min (List.length corners) (List.length lengths) - k))%nat.
Proof.
  induction n as [| n IH]; intros k t; [apply Nat.le_0_l |].
  cbn [seq map for_each].
  pose proof (draw_turn_cases corners lengths k t) as Hturn.
  cbv beta in Hturn |- *.
  match type of Hturn with
  | match res ?o with _ => _ end => destruct (res o) as [u | e] eqn:E
  end.
  - rewrite (bind_ok _ _ t u E). cbn [trace]. rewrite count_app.
    destruct Hturn as (Hc & Hl & ->).
    match goal with
    | |- context [for_each _ _ ?t'] => specialize (IH (S k) t')
    end.
    lia.
  - rewrite (bind_raise _ _ t e E). cbn [trace]. rewrite Hturn. lia.
Qed.

(** A comprehension that returns has made at least one call of the kind
    [p] per element, if each element makes one when it returns. *)
Lemma list_comp_calls {X Y : Type} (p : event A node -> bool)
    (f : X -> M A tree node Y) (l : list X) :
  (forall x t y, res (f x t) = Ok y -> (1 <= count p (trace (f x t)))%nat) ->
  forall t ys,
    res (list_comp f l t) = Ok ys ->
    (List.length ys <= count p (trace (list_comp f l t)))%nat.
Proof.
  intros Hf. induction l as [| a l IH]; intros t ys.
  - cbn. intros E. injection E as <-. apply Nat.le_0_l.
  - cbn [list_comp].
    destruct (res (f a t)) as [y | e] eqn:Ea;
      [| rewrite (bind_raise _ _ t e Ea); discriminate].
    rewrite (bind_ok _ _ t y Ea). cbn [res trace].
    destruct (res (list_comp f l (final (f a t)))) as [ys' | e] eqn:El;
      [| rewrite (bind_raise _ _ _ e El); discriminate].
    rewrite (bind_ok _ _ _ ys' El). cbn [res trace ret].
    intros E. injection E as <-. rewrite app_nil_r, count_app.
    specialize (Hf a t y Ea). specialize (IH _ ys' El). cbn [List.length]. lia.
Qed.

Variable methods : TreeMethods A tree node.

Lemma corner_reads_lowerBounds (i : Z) (t : tree) (c : list A) :
  res (bind (fetchEndNode methods i) (fun nd => lowerBounds methods nd) t)
  = Ok c ->
  (1 <= count is_lowerBounds_call
          (trace (bind (fetchEndNode methods i)
                       (fun nd => lowerBounds methods nd) t)))%nat.
Proof.
  destruct (res (fetchEndNode methods i t)) as [nd | e] eqn:E;
    [| rewrite (bind_raise _ _ t e E); discriminate].
  rewrite (bind_ok _ _ t nd E). cbn [res trace]. intros _.
  rewrite count_app. unfold lowerBounds at 1. rewrite tree_call_eq.
  cbn [trace]. unfold count at 2. cbn. lia.
Qed.

Lemma length_reads_upperBounds (i : Z) (t : tree) (L : A) :
  res (bind (fetchEndNode methods i) (fun nu =>
       bind (upperBounds methods nu) (fun ub =>
       bind (lift (getitem ub 0)) (fun u0 =>
       bind (fetchEndNode methods i) (fun nl =>
       bind (lowerBounds methods nl) (fun lb =>
       bind (lift (getitem lb 0)) (fun l0 =>
       ret (py_sub u0 l0))))))) t) = Ok L ->
  (1 <= count is_upperBounds_call
          (trace (bind (fetchEndNode methods i) (fun nu =>
                  bind (upperBounds methods nu) (fun ub =>
                  bind (lift (getitem ub 0)) (fun u0 =>
                  bind (fetchEndNode methods i) (fun nl =>
                  bind (lowerBounds methods nl) (fun lb =>
                  bind (lift (getitem lb 0)) (fun l0 =>
                  ret (py_sub u0 l0))))))) t)))%nat.
Proof.
  destruct (res (fetchEndNode methods i t)) as [nu | e] eqn:E;
    [| rewrite (bind_raise _ _ t e E); discriminate].
  rewrite (bind_ok _ _ t nu E). cbn [res trace].
  destruct (res (upperBounds methods nu (final (fetchEndNode methods i t))))
    as [ub | e] eqn:Eu;
    [| rewrite (bind_raise _ _ _ e Eu); discriminate].
  rewrite (bind_ok _ _ _ ub Eu). cbn [res trace]. intros _.
  rewrite !count_app. unfold upperBounds at 1. rewrite tree_call_eq.
  cbn [trace]. unfold count at 2. cbn. lia.
Qed.

(** Under a prefix that does not draw, a bound on the draws carries over. *)
Lemma draws_bound_bind_quiet {X Y : Type} (m : M A tree node X)
    (f : X -> M A tree node Y) (c : nat) :
  quiet m ->
  (forall x t, (count is_draw (trace (f x t)) <= c)%nat) ->
  forall t, (count is_draw (trace (bind m f t)) <= c)%nat.
Proof.
  intros Hm Hf t. destruct (Hm t) as (Dm & _).
  destruct (res (m t)) as [x | e] eqn:E.
  - rewrite (bind_ok m f t x E). cbn [trace].
    rewrite count_app, (count_no_draw _ Dm). apply Hf.
  - rewrite (bind_raise m f t e E). cbn [trace].
    rewrite (count_no_draw _ Dm). apply Nat.le_0_l.
Qed.

Lemma backed_bind_quiet {X Y : Type} (p : event A node -> bool)
    (m : M A tree node X) (f : X -> M A tree node Y) :
  quiet m ->
  (forall x t, (count is_draw (trace (f x t))
                <= 6 * count p (trace (f x t)))%nat) ->
  forall t, (count is_draw (trace (bind m f t))
             <= 6 * count p (trace (bind m f t)))%nat.
Proof.
  intros Hm Hf t. destruct (Hm t) as (Dm & _).
  destruct (res (m t)) as [x | e] eqn:E.
  - rewrite (bind_ok m f t x E). cbn [trace].
    rewrite !count_app, (count_no_draw _ Dm).
    specialize (Hf x (final (m t))). lia.
  - rewrite (bind_raise m f t e E). cbn [trace].
    rewrite (count_no_draw _ Dm). apply Nat.le_0_l.
Qed.

Lemma backed_bind_comp {X Y : Type} (p : event A node -> bool)
    (m : M A tree node (list X)) (f : list X -> M A tree node Y) :
  quiet m ->
  (forall t ys, res (m t) = Ok ys ->
                (List.length ys <= count p (trace (m t)))%nat) ->
  (forall ys t, (count is_draw (trace (f ys t)) <= 6 * List.length ys)%nat) ->
  forall t, (count is_draw (trace (bind m f t))
             <= 6 * count p (trace (bind m f t)))%nat.
Proof.
  intros Hm Hlen Hf t. destruct (Hm t) as (Dm & _).
  destruct (res (m t)) as [ys | e] eqn:E.
  - rewrite (bind_ok m f t ys E). cbn [trace].
    rewrite !count_app, (count_no_draw _ Dm).
    specialize (Hf ys (final (m t))). specialize (Hlen t ys E). lia.
  - rewrite (bind_raise m f t e E). cbn [trace].
    rewrite (count_no_draw _ Dm). apply Nat.le_0_l.
Qed.

Lemma draw_range_bound (corners : list (list A)) (lengths : list A)
    (n : Z) (t : tree) :
  (count is_draw (trace (for_each (range n) (draw_turn corners lengths) t))
   <= 6 * Nat.min (List.length corners) (List.length lengths))%nat.
Proof.
  unfold range.
  pose proof (draw_loop_bound corners lengths (Z.to_nat n) 0 t) as Hb.
  rewrite Nat.sub_0_r in Hb. exact Hb.
Qed.

(** Whatever the tree does, also when [nEndNodes] changes its answer from
    one call to the next, [grid_plotter] draws no cube whose bounds it has
    not read: the faces submitted are at most six for each [lowerBounds]
    call made, and at most six for each [upperBounds] call made. *)
Theorem draws_backed_by_reads (t : tree) :
  (count is_draw (trace (grid_plotter methods t))
   <= 6 * count is_lowerBounds_call (trace (grid_plotter methods t)))%nat /\
  (count is_draw (trace (grid_plotter methods t))
   <= 6 * count is_upperBounds_call (trace (grid_plotter methods t)))%nat.
Proof.
  split; revert t; unfold grid_plotter.
  - do 5 (apply backed_bind_quiet; [prove_quiet | intros ?]).
    apply backed_bind_comp; [prove_quiet | |].
    + apply list_comp_calls. intros i t c. apply corner_reads_lowerBounds.
    + intros corners.
      apply draws_bound_bind_quiet; [prove_quiet | intros n2].
      apply draws_bound_bind_quiet; [prove_quiet | intros lengths].
      apply draws_bound_bind_quiet; [prove_quiet | intros n3 t].
      pose proof (draw_range_bound corners lengths n3 t). lia.
  - do 5 (apply backed_bind_quiet; [prove_quiet | intros ?]).
    apply backed_bind_quiet; [prove_quiet | intros corners].
    apply backed_bind_quiet; [prove_quiet | intros n2].
    apply backed_bind_comp; [prove_quiet | |].
    + apply list_comp_calls. intros i t L. apply length_reads_upperBounds.
    + intros lengths.
      apply draws_bound_bind_quiet; [prove_quiet | intros n3 t].
      pose proof (draw_range_bound corners lengths n3 t). lia.
Qed.

End BackedByReads.

(** ** What the plotting surface receives *)

Section WellFormedDraws.
Context {A : Type} `{PyNum A} {tree node : Type}.

Lemma plot_cube_ok_faces (corner : list A) (L : A) (data : list face) :
  plot_cube corner L = Ok data -> Forall face_2x2 data.
Proof.
  destruct corner as [| x [| y [| z rest]]]; try discriminate.
  rewrite plot_cube_cons3. apply plot_cube_faces_2x2.
Qed.

Variable P : event A node -> Prop.
Hypothesis P_no_draw : forall e, is_draw e = false -> P e.

Lemma all_calls_quiet {X : Type} (m : M A tree node X) (t : tree) :
  quiet m -> Forall P (trace (m t)).
Proof.
  intros Hm. destruct (Hm t) as (Dm & _).
  revert Dm. apply Forall_impl. exact P_no_draw.
Qed.

Lemma all_calls_bind {X Y : Type} (m : M A tree node X)
    (f : X -> M A tree node Y) :
  (forall t, Forall P (trace (m t))) ->
  (forall x t, Forall P (trace (f x t))) ->
  forall t, Forall P (trace (bind m f t)).
Proof.
  intros Hm Hf t. destruct (res (m t)) as [x | e] eqn:E.
  - rewrite (bind_ok m f t x E). cbn [trace].
    apply Forall_app. split; [apply Hm | apply Hf].
  - rewrite (bind_raise m f t e E). apply Hm.
Qed.

Lemma all_calls_for_each {X : Type} (body : X -> M A tree node unit)
    (l : list X) :
  (forall x, In x l -> forall t, Forall P (trace (body x t))) ->
  forall t, Forall P (trace (for_each l body t)).
Proof.
  induction l as [| a l IH]; intros Hb; cbn [for_each].
  - intros t. constructor.
  - apply all_calls_bind; [apply Hb; left; reflexivity | intros _].
    apply IH. intros x Hx. apply Hb. right. exact Hx.
Qed.

End WellFormedDraws.

Section WellFormedDrawsMain.
Context {A : Type} `{PyNum A} {tree node : Type}.

Ltac prove_quiet :=
  repeat first
    [ apply quiet_bind; [| intro]
    | apply quiet_list_comp; intro
    | apply quiet_plot_call; reflexivity
    | apply quiet_tree_call; reflexivity
    | apply quiet_lift
    | apply quiet_ret ].

(** Whatever the tree answers, every [plot_surface] call [grid_plotter]
    makes passes three 2x2 grids, [color="purple"] and [alpha=0.01]. *)
Theorem every_draw_well_formed (methods : TreeMethods A tree node) (t : tree) :
  Forall (fun e : event A node =>
            is_draw e = true ->
            exists X Y Z,
              ev_call e = Call_plot_surface X Y Z "purple" alpha_literal /\
              face_2x2 (X, Y, Z))
         (trace (grid_plotter methods t)).
Proof.
  revert t. unfold grid_plotter.
  assert (Hq : forall e : event A node,
             is_draw e = false ->
             is_draw e = true ->
             exists X Y Z,
               ev_call e = Call_plot_surface X Y Z "purple" alpha_literal /\
               face_2x2 (X, Y, Z)) by (intros e -> ?; discriminate).
  do 9 (apply all_calls_bind;
        [intros t; apply (all_calls_quiet _ Hq); prove_quiet | intros ?]).
  apply all_calls_for_each. intros i _.
  apply all_calls_bind;
    [intros t; apply (all_calls_quiet _ Hq); prove_quiet | intros corner].
  apply all_calls_bind;
    [intros t; apply (all_calls_quiet _ Hq); prove_quiet | intros length].
  intros t. destruct (plot_cube corner length) as [data | e] eqn:E.
  - rewrite bind_lift_ok. cbn [trace].
    apply all_calls_for_each. intros d Hd t'. repeat constructor.
    intros _. exists (face_X d), (face_Y d), (face_Z d).
    split; [reflexivity |].
    pose proof (plot_cube_ok_faces corner length data E) as Hfaces.
    rewrite Forall_forall in Hfaces. destruct d as [[X Y] Z].
    apply (Hfaces _ Hd).
  - rewrite bind_lift_raise. constructor.
Qed.

End WellFormedDrawsMain.

(** A tree that grows while it is rendered: the third answer of
    [nEndNodes] exceeds the number of corners gathered, so after the first
    cube the subscript [corners[1]] raises. *)
Example growing_tree_run :
  res (grid_plotter growing_methods 0%nat) = Raise IndexError /\
  map shape_of (trace (grid_plotter growing_methods 0%nat)) =
  [S_figure; S_add_subplot 111 "3d"; S_grid false; S_axis "off";
   S_nEndNodes; S_fetchEndNode 0; S_lowerBounds;
   S_nEndNodes; S_fetchEndNode 0; S_upperBounds;
   S_fetchEndNode 0; S_lowerBounds;
   S_nEndNodes] ++ repeat (S_plot_surface "purple" alpha_literal) 6 /\
  final (grid_plotter growing_methods 0%nat) = 3%nat.
Proof. repeat split; vm_compute; reflexivity. Qed.
